(** * Callbacks of the Telegram assistant agent

    A shallow embedding of
    [agent/telegram-assistant/shared_libraries/callbacks.py]:
    the request throttle [rate_limit_callback], the customer id validator
    [validate_customer_id], the value normaliser [lowercase_value], the
    pre-tool guard [before_tool] and the session metadata extractor
    [before_agent].

    Modelling conventions.
    - Python values are the inductive [pyval]; a raised exception is the
      left side of [res A] (Python's exceptions carry no payload here).
    - A Python [str] is a Rocq [string] holding its UTF-8 encoding (a
      lone surrogate in its three-byte form); [str.lower] follows the
      Unicode 14.0 tables of CPython 3.11. A [bytes] or [bytearray] is
      the string of its bytes.
    - A finite Python float is the rational it denotes ([Q]). [float()]
      of a decimal text, as in [json.loads], rounds to binary64 and
      [repr] prints the shortest text that reads back as the double; the
      rounding of arithmetic is not modelled, nor the sign of a zero.
      [time.time()] is passed in as the argument [now].
    - The session [State] is a [gmap string pyval]; a dict value is an
      association list in insertion order whose keys are pairwise distinct.
    - Logging output is diagnostic only and is not modelled. *)

From Stdlib Require Import QArith ZArith String Ascii List Bool.
From stdpp Require Import gmap strings.

Local Open Scope string_scope.
Set Warnings "-register-all".

(* ------------------------------------------------------------------ *)
(** ** Python values *)

Inductive pyfloat : Type :=
  | FFin (q : Q)            (* a finite float, by its exact value *)
  | FInf (negative : bool)  (* inf / -inf *)
  | FNaN.

Inductive pyval : Type :=
  | PNone
  | PBool (b : bool)
  | PInt (z : Z)
  | PFloat (f : pyfloat)
  | PStr (s : string)
  | PBytes (b : string)     (* bytes or bytearray *)
  | PList (xs : list pyval)
  | PTuple (xs : list pyval)
  | PSet (xs : list pyval)
  | PDict (kvs : list (pyval * pyval))
  | PObj (id : nat).        (* an instance of any other class *)

(** Exceptions raised by the modelled code. *)
Inductive pyexc : Type :=
  | JSONDecodeError
  | KeyError
  | TypeError
  | AttributeError
  | ValueError
  | UnicodeDecodeError.

Definition res (A : Type) : Type := (pyexc + A)%type.

Definition res_bind {A B} (m : res A) (k : A -> res B) : res B :=
  match m with
  | inl e => inl e
  | inr a => k a
  end.

Notation "x <-! m ;; k" := (res_bind m (fun x => k))
  (at level 100, m at next level, right associativity).

(** Nested induction principle for [pyval]. *)
Section pyval_ind'.
Variable P : pyval -> Prop.
Hypothesis HNone : P PNone.
Hypothesis HBool : forall b, P (PBool b).
Hypothesis HInt : forall z, P (PInt z).
Hypothesis HFloat : forall f, P (PFloat f).
Hypothesis HStr : forall s, P (PStr s).
Hypothesis HBytes : forall b, P (PBytes b).
Hypothesis HList : forall xs, Forall P xs -> P (PList xs).
Hypothesis HTuple : forall xs, Forall P xs -> P (PTuple xs).
Hypothesis HSet : forall xs, Forall P xs -> P (PSet xs).
Hypothesis HDict : forall kvs,
  Forall (fun kv => P (fst kv)) kvs -> Forall (fun kv => P (snd kv)) kvs ->
  P (PDict kvs).
Hypothesis HObj : forall n, P (PObj n).

Fixpoint pyval_ind' (v : pyval) : P v :=
  let fix go (xs : list pyval) : Forall P xs :=
    match xs with
    | [] => List.Forall_nil _
    | x :: xs' => @List.Forall_cons _ P x xs' (pyval_ind' x) (go xs')
    end in
  match v with
  | PNone => HNone
  | PBool b => HBool b
  | PInt z => HInt z
  | PFloat f => HFloat f
  | PStr s => HStr s
  | PBytes b => HBytes b
  | PList xs => HList xs (go xs)
  | PTuple xs => HTuple xs (go xs)
  | PSet xs => HSet xs (go xs)
  | PDict kvs =>
      HDict kvs
        ((fix gk (l : list (pyval * pyval)) : Forall (fun kv => P (fst kv)) l :=
            match l with
            | [] => List.Forall_nil _
            | kv :: l' => @List.Forall_cons _ (fun kv => P (fst kv)) kv l' (pyval_ind' (fst kv)) (gk l')
            end) kvs)
        ((fix gv (l : list (pyval * pyval)) : Forall (fun kv => P (snd kv)) l :=
            match l with
            | [] => List.Forall_nil _
            | kv :: l' => @List.Forall_cons _ (fun kv => P (snd kv)) kv l' (pyval_ind' (snd kv)) (gv l')
            end) kvs)
  | PObj n => HObj n
  end.
End pyval_ind'.

(* ------------------------------------------------------------------ *)
(** ** Numbers, truthiness, equality *)

(** The numeric view of [bool], [int] and [float]. *)
Definition py_numview (v : pyval) : option pyfloat :=
  match v with
  | PBool b => Some (FFin (if b then 1 else 0))
  | PInt z => Some (FFin (inject_Z z))
  | PFloat f => Some f
  | _ => None
  end.

Definition float_eqb (x y : pyfloat) : bool :=
  match x, y with
  | FFin a, FFin b => Qeq_bool a b
  | FInf n, FInf m => Bool.eqb n m
  | _, _ => false
  end.

(** [bool(v)]; instances of other classes are truthy. *)
Definition py_truthy (v : pyval) : bool :=
  match v with
  | PNone => false
  | PBool b => b
  | PInt z => negb (Z.eqb z 0)
  | PFloat (FFin q) => negb (Qeq_bool q 0)
  | PFloat _ => true
  | PStr s => negb (String.eqb s "")
  | PBytes b => negb (String.eqb b "")
  | PList xs | PTuple xs | PSet xs => negb (Nat.eqb (length xs) 0)
  | PDict kvs => negb (Nat.eqb (length kvs) 0)
  | PObj _ => true
  end.

(** [a == b] on the built-in types (the identity shortcut of container
    comparison is not modelled); objects compare by identity. *)
Fixpoint py_eq (a b : pyval) {struct a} : bool :=
  match py_numview a, py_numview b with
  | Some x, Some y => float_eqb x y
  | _, _ =>
    match a, b with
    | PNone, PNone => true
    | PStr s, PStr t => String.eqb s t
    | PBytes s, PBytes t => String.eqb s t
    | PList xs, PList ys | PTuple xs, PTuple ys =>
        (fix go (xs ys : list pyval) : bool :=
           match xs, ys with
           | [], [] => true
           | x :: xs', y :: ys' => py_eq x y && go xs' ys'
           | _, _ => false
           end) xs ys
    | PSet xs, PSet ys =>
        Nat.eqb (length xs) (length ys) &&
        (fix go (xs : list pyval) : bool :=
           match xs with
           | [] => true
           | x :: xs' => existsb (py_eq x) ys && go xs'
           end) xs
    | PDict kvs, PDict lvs =>
        Nat.eqb (length kvs) (length lvs) &&
        (fix go (kvs : list (pyval * pyval)) : bool :=
           match kvs with
           | [] => true
           | (k, v) :: kvs' =>
               existsb (fun lv => py_eq k (fst lv) && py_eq v (snd lv)) lvs
               && go kvs'
           end) kvs
    | PObj n, PObj m => Nat.eqb n m
    | _, _ => false
    end
  end.

(** [dict.get(key)] on the entries of a dict. *)
Fixpoint dict_lookup (kvs : list (pyval * pyval)) (key : pyval) : option pyval :=
  match kvs with
  | [] => None
  | (k, v) :: kvs' => if py_eq k key then Some v else dict_lookup kvs' key
  end.

(** [d[key] = v] on the entries of a dict: an existing key keeps its
    position and takes the new value, a new key goes last. *)
Fixpoint dict_set (kvs : list (pyval * pyval)) (key v : pyval) : list (pyval * pyval) :=
  match kvs with
  | [] => [(key, v)]
  | (k, w) :: kvs' =>
      if py_eq k key then (k, v) :: kvs' else (k, w) :: dict_set kvs' key v
  end.

(** [obj.get(key, default)]: only dicts have the method. *)
Definition py_get (obj key default : pyval) : res pyval :=
  match obj with
  | PDict kvs =>
      match dict_lookup kvs key with
      | Some v => inr v
      | None => inr default
      end
  | _ => inl AttributeError
  end.

(** [set(iterable)]: later elements equal to an earlier one are dropped. *)
Fixpoint py_set_add (acc : list pyval) (x : pyval) : list pyval :=
  match acc with
  | [] => [x]
  | y :: acc' => if py_eq y x then acc else y :: py_set_add acc' x
  end.

Definition py_set_of (xs : list pyval) : list pyval := fold_left py_set_add xs [].

(** [bool] and [int] as Python integers. *)
Definition py_intview (v : pyval) : option Z :=
  match v with
  | PBool b => Some (if b then 1%Z else 0%Z)
  | PInt z => Some z
  | _ => None
  end.

Definition fneg (x : pyfloat) : pyfloat :=
  match x with
  | FFin q => FFin (- q)
  | FInf n => FInf (negb n)
  | FNaN => FNaN
  end.

Definition fadd (x y : pyfloat) : pyfloat :=
  match x, y with
  | FFin a, FFin b => FFin (a + b)
  | FNaN, _ | _, FNaN => FNaN
  | FInf n, FInf m => if Bool.eqb n m then FInf n else FNaN
  | FInf n, FFin _ | FFin _, FInf n => FInf n
  end.

(** [a + b]. *)
Definition py_add (a b : pyval) : res pyval :=
  match py_intview a, py_intview b with
  | Some x, Some y => inr (PInt (x + y))
  | _, _ =>
    match py_numview a, py_numview b with
    | Some x, Some y => inr (PFloat (fadd x y))
    | _, _ =>
      match a, b with
      | PStr s, PStr t => inr (PStr (s ++ t))
      | PBytes s, PBytes t => inr (PBytes (s ++ t))
      | PList xs, PList ys => inr (PList (xs ++ ys))
      | PTuple xs, PTuple ys => inr (PTuple (xs ++ ys))
      | _, _ => inl TypeError
      end
    end
  end.

(** [a - b]. *)
Definition py_sub (a b : pyval) : res pyval :=
  match py_intview a, py_intview b with
  | Some x, Some y => inr (PInt (x - y))
  | _, _ =>
    match py_numview a, py_numview b with
    | Some x, Some y => inr (PFloat (fadd x (fneg y)))
    | _, _ =>
      match a, b with
      | PSet xs, PSet ys => inr (PSet (filter (fun x => negb (existsb (py_eq x) ys)) xs))
      | _, _ => inl TypeError
      end
    end
  end.

(** Comparison of a value with an integer constant, as [v > c] and
    [v <= c] in the source: numbers compare by value (NaN with nothing),
    any other type raises [TypeError]. *)
Definition fcompare (x : pyfloat) (c : Z) : option comparison :=
  match x with
  | FFin q => Some (Qcompare q (inject_Z c))
  | FInf negative => Some (if negative then Lt else Gt)
  | FNaN => None
  end.

Definition py_gt (v : pyval) (c : Z) : res bool :=
  match py_numview v with
  | Some x => inr (match fcompare x c with Some Gt => true | _ => false end)
  | None => inl TypeError
  end.

Definition py_le (v : pyval) (c : Z) : res bool :=
  match py_numview v with
  | Some x => inr (match fcompare x c with Some Lt | Some Eq => true | _ => false end)
  | None => inl TypeError
  end.

(* ------------------------------------------------------------------ *)
(** ** [str(v)] *)

Definition digit_char (d : Z) : ascii := ascii_of_nat (48 + Z.to_nat d).

Fixpoint pos_digits (fuel : nat) (n : Z) (acc : string) : string :=
  match fuel with
  | O => acc
  | S f =>
      let acc' := String (digit_char (n mod 10)) acc in
      if (n <? 10)%Z then acc' else pos_digits f (n / 10) acc'
  end.

(** Decimal text of an integer. *)
Definition Z_to_dec (z : Z) : string :=
  if (z <? 0)%Z
  then "-" ++ pos_digits (S (Z.to_nat (Z.log2 (- z)))) (- z) ""
  else pos_digits (S (Z.to_nat (Z.log2 z))) z "".

(** [a / b] rounded to the nearest integer, ties to even ([b > 0]). *)
Definition Z_div_round_even (a b : Z) : Z :=
  let q := (a / b)%Z in
  let r := (a mod b)%Z in
  match Z.compare (2 * r) b with
  | Lt => q
  | Gt => (q + 1)%Z
  | Eq => if Z.even q then q else (q + 1)%Z
  end.

(** [2 ^ e <= n / d] for [n, d > 0], any integer [e]. *)
Definition pow2_le (e n d : Z) : bool :=
  if (0 <=? e)%Z then (d * 2 ^ e <=? n)%Z else (d <=? n * 2 ^ (- e))%Z.

(** [m * 2 ^ e] as a rational, in lowest terms. *)
Definition Q_of_bin (m e : Z) : Q :=
  if (0 <=? e)%Z then inject_Z (m * 2 ^ e)%Z else Qred (Qmake m (Z.to_pos (2 ^ (- e))%Z)).

(** The binary64 value nearest to [q] (ties to even), as Python's
    [float()] of a decimal text gives it: [inf] from [2 ^ 1024] on after
    rounding, subnormals below [2 ^ -1022]. The sign of a zero result is
    not kept. *)
Definition round_binary64 (q : Q) : pyfloat :=
  let n := Z.abs (Qnum q) in
  let d := Zpos (Qden q) in
  if (n =? 0)%Z then FFin 0 else
  let l := (Z.log2 n - Z.log2 d)%Z in
  let e2 := if pow2_le l n d then l else (l - 1)%Z in
  let qe := (Z.max e2 (-1022) - 52)%Z in
  let m := if (0 <=? qe)%Z then Z_div_round_even n (d * 2 ^ qe)%Z
           else Z_div_round_even (n * 2 ^ (- qe))%Z d in
  let neg := (Qnum q <? 0)%Z in
  if (0 <=? qe)%Z && (2 ^ 1024 <=? m * 2 ^ qe)%Z then FInf neg
  else FFin (Q_of_bin (if neg then (- m)%Z else m) qe).

(** [10 ^ t <= n / d] for [n, d > 0], any integer [t]. *)
Definition pow10_le (t n d : Z) : bool :=
  if (0 <=? t)%Z then (d * 10 ^ t <=? n)%Z else (d <=? n * 10 ^ (- t))%Z.

(** [floor (log10 (n / d))], from an estimate through [log2]. *)
Fixpoint dec_exp_fix (fuel : nat) (t n d : Z) : Z :=
  match fuel with
  | O => t
  | S f =>
      if negb (pow10_le t n d) then dec_exp_fix f (t - 1) n d
      else if pow10_le (t + 1) n d then dec_exp_fix f (t + 1) n d
      else t
  end.

Definition dec_exp (n d : Z) : Z :=
  dec_exp_fix 8 ((Z.log2 n - Z.log2 d) * 30103 / 100000)%Z n d.

(** [N * 10 ^ s] as a rational. *)
Definition Q_of_dec (m s : Z) : Q :=
  if (0 <=? s)%Z then inject_Z (m * 10 ^ s)%Z else Qmake m (Z.to_pos (10 ^ (- s))%Z).

Definition same_float (x : pyfloat) (a : Q) : bool :=
  match x with
  | FFin b => Qeq_bool a b
  | _ => false
  end.

(** The shortest decimal [N * 10 ^ s] (fewest significant digits, at most
    17) that reads back as the double [n / d], the nearest one among those
    of that length: the digits [repr] prints. *)
Fixpoint shortest_digits (fuel k : nat) (n d t : Z) : Z * Z :=
  let a := Qmake n (Z.to_pos d) in
  let s := (t - Z.of_nat k + 1)%Z in
  let lo := if (0 <=? s)%Z then (n / (d * 10 ^ s))%Z else (n * 10 ^ (- s) / d)%Z in
  let exact := Qeq_bool (Q_of_dec lo s) a in
  let hi := (lo + 1)%Z in
  let ok_lo := same_float (round_binary64 (Q_of_dec lo s)) a in
  let ok_hi := same_float (round_binary64 (Q_of_dec hi s)) a in
  match fuel with
  | O => (lo, s)
  | S f =>
      if exact then (lo, s)
      else if ok_lo && ok_hi then
        (if Qle_bool (a - Q_of_dec lo s)%Q (Q_of_dec hi s - a)%Q then (lo, s) else (hi, s))
      else if ok_lo then (lo, s)
      else if ok_hi then (hi, s)
      else shortest_digits f (S k) n d t
  end.

Fixpoint strip_zeros (fuel : nat) (m s : Z) : Z * Z :=
  match fuel with
  | O => (m, s)
  | S f => if (m mod 10 =? 0)%Z then strip_zeros f (m / 10)%Z (s + 1)%Z else (m, s)
  end.

Fixpoint zeros (n : nat) : string :=
  match n with
  | O => ""
  | S k => String "0" (zeros k)
  end.

Fixpoint str_take (n : nat) (s : string) : string :=
  match n, s with
  | S n', String c r => String c (str_take n' r)
  | _, _ => ""
  end.

Fixpoint str_drop (n : nat) (s : string) : string :=
  match n, s with
  | S n', String _ r => str_drop n' r
  | _, _ => s
  end.

(** [repr] of a positive double from its digits and the position of the
    decimal point ([0.digits * 10 ^ decpt]): plain notation when
    [-4 < decpt <= 16], otherwise [d.ddde+XX]. *)
Definition format_repr (ds : string) (decpt : Z) : string :=
  let nd := Z.of_nat (String.length ds) in
  if (decpt <=? -4)%Z || (16 <? decpt)%Z then
    let e := (decpt - 1)%Z in
    let mant := match ds with
                | String c EmptyString => String c ""
                | String c r => String c ("." ++ r)
                | EmptyString => ""
                end in
    mant ++ "e" ++ (if (e <? 0)%Z then "-" else "+")
    ++ (if (Z.abs e <? 10)%Z then "0" else "") ++ Z_to_dec (Z.abs e)
  else if (decpt <=? 0)%Z then "0." ++ zeros (Z.to_nat (- decpt)) ++ ds
  else if (nd <=? decpt)%Z then ds ++ zeros (Z.to_nat (decpt - nd)) ++ ".0"
  else str_take (Z.to_nat decpt) ds ++ "." ++ str_drop (Z.to_nat decpt) ds.

(** [repr] of a float; a finite value is first rounded to binary64, so
    that it prints as Python prints the double. *)
Definition float_repr (x : pyfloat) : string :=
  match x with
  | FInf false => "inf"
  | FInf true => "-inf"
  | FNaN => "nan"
  | FFin q =>
      match round_binary64 q with
      | FInf false => "inf"
      | FInf true => "-inf"
      | FNaN => "nan"
      | FFin v =>
          let n := Z.abs (Qnum v) in
          let d := Zpos (Qden v) in
          if (n =? 0)%Z then "0.0" else
          let '(m, s) := shortest_digits 17 1 n d (dec_exp n d) in
          let '(m', s') := strip_zeros 17 m s in
          let ds := Z_to_dec m' in
          (if (Qnum v <? 0)%Z then "-" else "")
          ++ format_repr ds (Z.of_nat (String.length ds) + s')
      end
  end.

Fixpoint join (sep : string) (xs : list string) : string :=
  match xs with
  | [] => ""
  | [x] => x
  | x :: xs' => x ++ sep ++ join sep xs'
  end.

(** [repr(v)]; strings and bytes are quoted without escape sequences. *)
Fixpoint py_repr (v : pyval) : string :=
  match v with
  | PNone => "None"
  | PBool true => "True"
  | PBool false => "False"
  | PInt z => Z_to_dec z
  | PFloat x => float_repr x
  | PStr s => "'" ++ s ++ "'"
  | PBytes b => "b'" ++ b ++ "'"
  | PList xs => "[" ++ join ", " (map py_repr xs) ++ "]"
  | PTuple [x] => "(" ++ py_repr x ++ ",)"
  | PTuple xs => "(" ++ join ", " (map py_repr xs) ++ ")"
  | PSet [] => "set()"
  | PSet xs => "{" ++ join ", " (map py_repr xs) ++ "}"
  | PDict kvs =>
      "{" ++ join ", " (map (fun kv => py_repr (fst kv) ++ ": " ++ py_repr (snd kv)) kvs) ++ "}"
  | PObj _ => "<object>"
  end.

(** [str(v)], which f-strings use. *)
Definition py_str (v : pyval) : string :=
  match v with
  | PStr s => s
  | _ => py_repr v
  end.

(* ------------------------------------------------------------------ *)
(** ** [lowercase_value] *)

Definition byte_of (z : Z) : ascii := ascii_of_nat (Z.to_nat z).

Definition utf8_encode (cp : Z) : string :=
  if (cp <? 128)%Z then String (byte_of cp) ""
  else if (cp <? 2048)%Z then
    String (byte_of (192 + cp / 64)) (String (byte_of (128 + cp mod 64)) "")
  else if (cp <? 65536)%Z then
    String (byte_of (224 + cp / 4096))
      (String (byte_of (128 + (cp / 64) mod 64)) (String (byte_of (128 + cp mod 64)) ""))
  else
    String (byte_of (240 + cp / 262144))
      (String (byte_of (128 + (cp / 4096) mod 64))
        (String (byte_of (128 + (cp / 64) mod 64)) (String (byte_of (128 + cp mod 64)) ""))).

Definition byte_val (b : ascii) : Z := Z.of_nat (nat_of_ascii b).

(** [lo <= byte <= hi]. *)
Definition byte_in (lo hi : Z) (b : ascii) : bool :=
  let z := byte_val b in (lo <=? z)%Z && (z <=? hi)%Z.

(** One well-formed UTF-8 sequence at the start of [s], with the encoded
    surrogates U+D800..U+DFFF accepted (the [surrogatepass] error handler
    of Python's codec): its code point and the bytes after it. *)
Definition utf8_next (s : string) : option (Z * string) :=
  match s with
  | EmptyString => None
  | String b0 r =>
    let z0 := byte_val b0 in
    if (z0 <? 128)%Z then Some (z0, r)
    else if (194 <=? z0)%Z && (z0 <=? 223)%Z then
      match r with
      | String b1 r1 =>
          if byte_in 128 191 b1 then Some ((z0 - 192) * 64 + (byte_val b1 - 128), r1)%Z
          else None
      | EmptyString => None
      end
    else if (224 <=? z0)%Z && (z0 <=? 239)%Z then
      match r with
      | String b1 (String b2 r2) =>
          if byte_in (if (z0 =? 224)%Z then 160 else 128) 191 b1 && byte_in 128 191 b2
          then Some ((z0 - 224) * 4096 + (byte_val b1 - 128) * 64 + (byte_val b2 - 128), r2)%Z
          else None
      | _ => None
      end
    else if (240 <=? z0)%Z && (z0 <=? 244)%Z then
      match r with
      | String b1 (String b2 (String b3 r3)) =>
          if byte_in (if (z0 =? 240)%Z then 144 else 128) (if (z0 =? 244)%Z then 143 else 191) b1
             && byte_in 128 191 b2 && byte_in 128 191 b3
          then Some ((z0 - 240) * 262144 + (byte_val b1 - 128) * 4096
                     + (byte_val b2 - 128) * 64 + (byte_val b3 - 128), r3)%Z
          else None
      | _ => None
      end
    else None
  end.

(** A text split into code points; a byte that starts no well-formed
    sequence (never the case for the encoding of a Python [str]) stays a
    raw byte. *)
Inductive utoken : Type :=
  | UCp (cp : Z)
  | URaw (b : ascii).

Fixpoint utf8_tokens (fuel : nat) (s : string) : list utoken :=
  match fuel with
  | O => []
  | S f =>
    match s with
    | EmptyString => []
    | String b r =>
      match utf8_next s with
      | Some (cp, rest) => UCp cp :: utf8_tokens f rest
      | None => URaw b :: utf8_tokens f r
      end
    end
  end.

Fixpoint tokens_text (ts : list utoken) : string :=
  match ts with
  | [] => ""
  | UCp cp :: r => utf8_encode cp ++ tokens_text r
  | URaw b :: r => String b (tokens_text r)
  end.

(** The simple lowercase mappings of Unicode 14.0 (as in CPython 3.11),
    as runs [(first, last, step, delta)]: each code point [c] of
    [first, first + step, ..., last] lowers to [c + delta]. *)
Definition lower_runs : list (Z * Z * Z * Z) := [
   (65, 90, 1, 32); (192, 214, 1, 32); (216, 222, 1, 32); (256, 302, 2, 1);
   (306, 310, 2, 1); (313, 327, 2, 1); (330, 374, 2, 1); (376, 376, 1, -121);
   (377, 381, 2, 1); (385, 385, 1, 210); (386, 388, 2, 1); (390, 390, 1, 206);
   (391, 391, 1, 1); (393, 394, 1, 205); (395, 395, 1, 1); (398, 398, 1, 79);
   (399, 399, 1, 202); (400, 400, 1, 203); (401, 401, 1, 1); (403, 403, 1, 205);
   (404, 404, 1, 207); (406, 406, 1, 211); (407, 407, 1, 209); (408, 408, 1, 1);
   (412, 412, 1, 211); (413, 413, 1, 213); (415, 415, 1, 214); (416, 420, 2, 1);
   (422, 422, 1, 218); (423, 423, 1, 1); (425, 425, 1, 218); (428, 428, 1, 1);
   (430, 430, 1, 218); (431, 431, 1, 1); (433, 434, 1, 217); (435, 437, 2, 1);
   (439, 439, 1, 219); (440, 440, 1, 1); (444, 444, 1, 1); (452, 452, 1, 2);
   (453, 453, 1, 1); (455, 455, 1, 2); (456, 456, 1, 1); (458, 458, 1, 2);
   (459, 475, 2, 1); (478, 494, 2, 1); (497, 497, 1, 2); (498, 500, 2, 1);
   (502, 502, 1, -97); (503, 503, 1, -56); (504, 542, 2, 1); (544, 544, 1, -130);
   (546, 562, 2, 1); (570, 570, 1, 10795); (571, 571, 1, 1); (573, 573, 1, -163);
   (574, 574, 1, 10792); (577, 577, 1, 1); (579, 579, 1, -195); (580, 580, 1, 69);
   (581, 581, 1, 71); (582, 590, 2, 1); (880, 882, 2, 1); (886, 886, 1, 1);
   (895, 895, 1, 116); (902, 902, 1, 38); (904, 906, 1, 37); (908, 908, 1, 64);
   (910, 911, 1, 63); (913, 929, 1, 32); (932, 939, 1, 32); (975, 975, 1, 8);
   (984, 1006, 2, 1); (1012, 1012, 1, -60); (1015, 1015, 1, 1); (1017, 1017, 1, -7);
   (1018, 1018, 1, 1); (1021, 1023, 1, -130); (1024, 1039, 1, 80); (1040, 1071, 1, 32);
   (1120, 1152, 2, 1); (1162, 1214, 2, 1); (1216, 1216, 1, 15); (1217, 1229, 2, 1);
   (1232, 1326, 2, 1); (1329, 1366, 1, 48); (4256, 4293, 1, 7264); (4295, 4295, 1, 7264);
   (4301, 4301, 1, 7264); (5024, 5103, 1, 38864); (5104, 5109, 1, 8); (7312, 7354, 1, -3008);
   (7357, 7359, 1, -3008); (7680, 7828, 2, 1); (7838, 7838, 1, -7615); (7840, 7934, 2, 1);
   (7944, 7951, 1, -8); (7960, 7965, 1, -8); (7976, 7983, 1, -8); (7992, 7999, 1, -8);
   (8008, 8013, 1, -8); (8025, 8031, 2, -8); (8040, 8047, 1, -8); (8072, 8079, 1, -8);
   (8088, 8095, 1, -8); (8104, 8111, 1, -8); (8120, 8121, 1, -8); (8122, 8123, 1, -74);
   (8124, 8124, 1, -9); (8136, 8139, 1, -86); (8140, 8140, 1, -9); (8152, 8153, 1, -8);
   (8154, 8155, 1, -100); (8168, 8169, 1, -8); (8170, 8171, 1, -112); (8172, 8172, 1, -7);
   (8184, 8185, 1, -128); (8186, 8187, 1, -126); (8188, 8188, 1, -9); (8486, 8486, 1, -7517);
   (8490, 8490, 1, -8383); (8491, 8491, 1, -8262); (8498, 8498, 1, 28); (8544, 8559, 1, 16);
   (8579, 8579, 1, 1); (9398, 9423, 1, 26); (11264, 11311, 1, 48); (11360, 11360, 1, 1);
   (11362, 11362, 1, -10743); (11363, 11363, 1, -3814); (11364, 11364, 1, -10727); (11367, 11371, 2, 1);
   (11373, 11373, 1, -10780); (11374, 11374, 1, -10749); (11375, 11375, 1, -10783); (11376, 11376, 1, -10782);
   (11378, 11378, 1, 1); (11381, 11381, 1, 1); (11390, 11391, 1, -10815); (11392, 11490, 2, 1);
   (11499, 11501, 2, 1); (11506, 11506, 1, 1); (42560, 42604, 2, 1); (42624, 42650, 2, 1);
   (42786, 42798, 2, 1); (42802, 42862, 2, 1); (42873, 42875, 2, 1); (42877, 42877, 1, -35332);
   (42878, 42886, 2, 1); (42891, 42891, 1, 1); (42893, 42893, 1, -42280); (42896, 42898, 2, 1);
   (42902, 42920, 2, 1); (42922, 42922, 1, -42308); (42923, 42923, 1, -42319); (42924, 42924, 1, -42315);
   (42925, 42925, 1, -42305); (42926, 42926, 1, -42308); (42928, 42928, 1, -42258); (42929, 42929, 1, -42282);
   (42930, 42930, 1, -42261); (42931, 42931, 1, 928); (42932, 42946, 2, 1); (42948, 42948, 1, -48);
   (42949, 42949, 1, -42307); (42950, 42950, 1, -35384); (42951, 42953, 2, 1); (42960, 42960, 1, 1);
   (42966, 42968, 2, 1); (42997, 42997, 1, 1); (65313, 65338, 1, 32); (66560, 66599, 1, 40);
   (66736, 66771, 1, 40); (66928, 66938, 1, 39); (66940, 66954, 1, 39); (66956, 66962, 1, 39);
   (66964, 66965, 1, 39); (68736, 68786, 1, 64); (71840, 71871, 1, 32); (93760, 93791, 1, 32);
   (125184, 125217, 1, 34)
  ]%Z.

(** The code points with the Unicode property Cased, as ranges. *)
Definition cased_ranges : list (Z * Z) := [
   (65, 90); (97, 122); (170, 170); (181, 181); (186, 186); (192, 214);
   (216, 246); (248, 442); (444, 447); (452, 659); (661, 696); (704, 705);
   (736, 740); (837, 837); (880, 883); (886, 887); (890, 893); (895, 895);
   (902, 902); (904, 906); (908, 908); (910, 929); (931, 1013); (1015, 1153);
   (1162, 1327); (1329, 1366); (1376, 1416); (4256, 4293); (4295, 4295); (4301, 4301);
   (4304, 4346); (4349, 4351); (5024, 5109); (5112, 5117); (7296, 7304); (7312, 7354);
   (7357, 7359); (7424, 7615); (7680, 7957); (7960, 7965); (7968, 8005); (8008, 8013);
   (8016, 8023); (8025, 8025); (8027, 8027); (8029, 8029); (8031, 8061); (8064, 8116);
   (8118, 8124); (8126, 8126); (8130, 8132); (8134, 8140); (8144, 8147); (8150, 8155);
   (8160, 8172); (8178, 8180); (8182, 8188); (8305, 8305); (8319, 8319); (8336, 8348);
   (8450, 8450); (8455, 8455); (8458, 8467); (8469, 8469); (8473, 8477); (8484, 8484);
   (8486, 8486); (8488, 8488); (8490, 8493); (8495, 8500); (8505, 8505); (8508, 8511);
   (8517, 8521); (8526, 8526); (8544, 8575); (8579, 8580); (9398, 9449); (11264, 11492);
   (11499, 11502); (11506, 11507); (11520, 11557); (11559, 11559); (11565, 11565); (42560, 42605);
   (42624, 42653); (42786, 42887); (42891, 42894); (42896, 42954); (42960, 42961); (42963, 42963);
   (42965, 42969); (42997, 42998); (43000, 43002); (43824, 43866); (43868, 43880); (43888, 43967);
   (64256, 64262); (64275, 64279); (65313, 65338); (65345, 65370); (66560, 66639); (66736, 66771);
   (66776, 66811); (66928, 66938); (66940, 66954); (66956, 66962); (66964, 66965); (66967, 66977);
   (66979, 66993); (66995, 67001); (67003, 67004); (67456, 67456); (67459, 67461); (67463, 67504);
   (67506, 67514); (68736, 68786); (68800, 68850); (71840, 71903); (93760, 93823); (119808, 119892);
   (119894, 119964); (119966, 119967); (119970, 119970); (119973, 119974); (119977, 119980); (119982, 119993);
   (119995, 119995); (119997, 120003); (120005, 120069); (120071, 120074); (120077, 120084); (120086, 120092);
   (120094, 120121); (120123, 120126); (120128, 120132); (120134, 120134); (120138, 120144); (120146, 120485);
   (120488, 120512); (120514, 120538); (120540, 120570); (120572, 120596); (120598, 120628); (120630, 120654);
   (120656, 120686); (120688, 120712); (120714, 120744); (120746, 120770); (120772, 120779); (122624, 122633);
   (122635, 122654); (125184, 125251); (127280, 127305); (127312, 127337); (127344, 127369)
  ]%Z.

(** The code points with the Unicode property Case_Ignorable, as ranges. *)
Definition case_ignorable_ranges : list (Z * Z) := [
   (39, 39); (46, 46); (58, 58); (94, 94); (96, 96); (168, 168);
   (173, 173); (175, 175); (180, 180); (183, 184); (688, 879); (884, 885);
   (890, 890); (900, 901); (903, 903); (1155, 1161); (1369, 1369); (1375, 1375);
   (1425, 1469); (1471, 1471); (1473, 1474); (1476, 1477); (1479, 1479); (1524, 1524);
   (1536, 1541); (1552, 1562); (1564, 1564); (1600, 1600); (1611, 1631); (1648, 1648);
   (1750, 1757); (1759, 1768); (1770, 1773); (1807, 1807); (1809, 1809); (1840, 1866);
   (1958, 1968); (2027, 2037); (2042, 2042); (2045, 2045); (2070, 2093); (2137, 2139);
   (2184, 2184); (2192, 2193); (2200, 2207); (2249, 2306); (2362, 2362); (2364, 2364);
   (2369, 2376); (2381, 2381); (2385, 2391); (2402, 2403); (2417, 2417); (2433, 2433);
   (2492, 2492); (2497, 2500); (2509, 2509); (2530, 2531); (2558, 2558); (2561, 2562);
   (2620, 2620); (2625, 2626); (2631, 2632); (2635, 2637); (2641, 2641); (2672, 2673);
   (2677, 2677); (2689, 2690); (2748, 2748); (2753, 2757); (2759, 2760); (2765, 2765);
   (2786, 2787); (2810, 2815); (2817, 2817); (2876, 2876); (2879, 2879); (2881, 2884);
   (2893, 2893); (2901, 2902); (2914, 2915); (2946, 2946); (3008, 3008); (3021, 3021);
   (3072, 3072); (3076, 3076); (3132, 3132); (3134, 3136); (3142, 3144); (3146, 3149);
   (3157, 3158); (3170, 3171); (3201, 3201); (3260, 3260); (3263, 3263); (3270, 3270);
   (3276, 3277); (3298, 3299); (3328, 3329); (3387, 3388); (3393, 3396); (3405, 3405);
   (3426, 3427); (3457, 3457); (3530, 3530); (3538, 3540); (3542, 3542); (3633, 3633);
   (3636, 3642); (3654, 3662); (3761, 3761); (3764, 3772); (3782, 3782); (3784, 3789);
   (3864, 3865); (3893, 3893); (3895, 3895); (3897, 3897); (3953, 3966); (3968, 3972);
   (3974, 3975); (3981, 3991); (3993, 4028); (4038, 4038); (4141, 4144); (4146, 4151);
   (4153, 4154); (4157, 4158); (4184, 4185); (4190, 4192); (4209, 4212); (4226, 4226);
   (4229, 4230); (4237, 4237); (4253, 4253); (4348, 4348); (4957, 4959); (5906, 5908);
   (5938, 5939); (5970, 5971); (6002, 6003); (6068, 6069); (6071, 6077); (6086, 6086);
   (6089, 6099); (6103, 6103); (6109, 6109); (6155, 6159); (6211, 6211); (6277, 6278);
   (6313, 6313); (6432, 6434); (6439, 6440); (6450, 6450); (6457, 6459); (6679, 6680);
   (6683, 6683); (6742, 6742); (6744, 6750); (6752, 6752); (6754, 6754); (6757, 6764);
   (6771, 6780); (6783, 6783); (6823, 6823); (6832, 6862); (6912, 6915); (6964, 6964);
   (6966, 6970); (6972, 6972); (6978, 6978); (7019, 7027); (7040, 7041); (7074, 7077);
   (7080, 7081); (7083, 7085); (7142, 7142); (7144, 7145); (7149, 7149); (7151, 7153);
   (7212, 7219); (7222, 7223); (7288, 7293); (7376, 7378); (7380, 7392); (7394, 7400);
   (7405, 7405); (7412, 7412); (7416, 7417); (7468, 7530); (7544, 7544); (7579, 7679);
   (8125, 8125); (8127, 8129); (8141, 8143); (8157, 8159); (8173, 8175); (8189, 8190);
   (8203, 8207); (8216, 8217); (8228, 8228); (8231, 8231); (8234, 8238); (8288, 8292);
   (8294, 8303); (8305, 8305); (8319, 8319); (8336, 8348); (8400, 8432); (11388, 11389);
   (11503, 11505); (11631, 11631); (11647, 11647); (11744, 11775); (11823, 11823); (12293, 12293);
   (12330, 12333); (12337, 12341); (12347, 12347); (12441, 12446); (12540, 12542); (40981, 40981);
   (42232, 42237); (42508, 42508); (42607, 42610); (42612, 42621); (42623, 42623); (42652, 42655);
   (42736, 42737); (42752, 42785); (42864, 42864); (42888, 42890); (42994, 42996); (43000, 43001);
   (43010, 43010); (43014, 43014); (43019, 43019); (43045, 43046); (43052, 43052); (43204, 43205);
   (43232, 43249); (43263, 43263); (43302, 43309); (43335, 43345); (43392, 43394); (43443, 43443);
   (43446, 43449); (43452, 43453); (43471, 43471); (43493, 43494); (43561, 43566); (43569, 43570);
   (43573, 43574); (43587, 43587); (43596, 43596); (43632, 43632); (43644, 43644); (43696, 43696);
   (43698, 43700); (43703, 43704); (43710, 43711); (43713, 43713); (43741, 43741); (43756, 43757);
   (43763, 43764); (43766, 43766); (43867, 43871); (43881, 43883); (44005, 44005); (44008, 44008);
   (44013, 44013); (64286, 64286); (64434, 64450); (65024, 65039); (65043, 65043); (65056, 65071);
   (65106, 65106); (65109, 65109); (65279, 65279); (65287, 65287); (65294, 65294); (65306, 65306);
   (65342, 65342); (65344, 65344); (65392, 65392); (65438, 65439); (65507, 65507); (65529, 65531);
   (66045, 66045); (66272, 66272); (66422, 66426); (67456, 67461); (67463, 67504); (67506, 67514);
   (68097, 68099); (68101, 68102); (68108, 68111); (68152, 68154); (68159, 68159); (68325, 68326);
   (68900, 68903); (69291, 69292); (69446, 69456); (69506, 69509); (69633, 69633); (69688, 69702);
   (69744, 69744); (69747, 69748); (69759, 69761); (69811, 69814); (69817, 69818); (69821, 69821);
   (69826, 69826); (69837, 69837); (69888, 69890); (69927, 69931); (69933, 69940); (70003, 70003);
   (70016, 70017); (70070, 70078); (70089, 70092); (70095, 70095); (70191, 70193); (70196, 70196);
   (70198, 70199); (70206, 70206); (70367, 70367); (70371, 70378); (70400, 70401); (70459, 70460);
   (70464, 70464); (70502, 70508); (70512, 70516); (70712, 70719); (70722, 70724); (70726, 70726);
   (70750, 70750); (70835, 70840); (70842, 70842); (70847, 70848); (70850, 70851); (71090, 71093);
   (71100, 71101); (71103, 71104); (71132, 71133); (71219, 71226); (71229, 71229); (71231, 71232);
   (71339, 71339); (71341, 71341); (71344, 71349); (71351, 71351); (71453, 71455); (71458, 71461);
   (71463, 71467); (71727, 71735); (71737, 71738); (71995, 71996); (71998, 71998); (72003, 72003);
   (72148, 72151); (72154, 72155); (72160, 72160); (72193, 72202); (72243, 72248); (72251, 72254);
   (72263, 72263); (72273, 72278); (72281, 72283); (72330, 72342); (72344, 72345); (72752, 72758);
   (72760, 72765); (72767, 72767); (72850, 72871); (72874, 72880); (72882, 72883); (72885, 72886);
   (73009, 73014); (73018, 73018); (73020, 73021); (73023, 73029); (73031, 73031); (73104, 73105);
   (73109, 73109); (73111, 73111); (73459, 73460); (78896, 78904); (92912, 92916); (92976, 92982);
   (92992, 92995); (94031, 94031); (94095, 94111); (94176, 94177); (94179, 94180); (110576, 110579);
   (110581, 110587); (110589, 110590); (113821, 113822); (113824, 113827); (118528, 118573); (118576, 118598);
   (119143, 119145); (119155, 119170); (119173, 119179); (119210, 119213); (119362, 119364); (121344, 121398);
   (121403, 121452); (121461, 121461); (121476, 121476); (121499, 121503); (121505, 121519); (122880, 122886);
   (122888, 122904); (122907, 122913); (122915, 122916); (122918, 122922); (123184, 123197); (123566, 123566);
   (123628, 123631); (125136, 125142); (125252, 125259); (127995, 127999); (917505, 917505); (917536, 917631);
   (917760, 917999)
  ]%Z.

Definition in_ranges (rs : list (Z * Z)) (c : Z) : bool :=
  existsb (fun r => (fst r <=? c)%Z && (c <=? snd r)%Z) rs.

Definition is_cased (c : Z) : bool := in_ranges cased_ranges c.

Definition is_case_ignorable (c : Z) : bool := in_ranges case_ignorable_ranges c.

(** The full lowercase mapping of a code point other than U+03A3: the one
    code point with a longer lowercase, U+0130, becomes [i] and U+0307. *)
Definition lower_cp (c : Z) : list Z :=
  if (c =? 304)%Z then [105; 775]%Z
  else
    match find (fun run => let '(lo, hi, step, _) := run in
                           (lo <=? c)%Z && (c <=? hi)%Z && ((c - lo) mod step =? 0)%Z)
               lower_runs with
    | Some (_, _, _, delta) => [(c + delta)%Z]
    | None => [c]
    end.

(** The first token that is not case-ignorable. *)
Fixpoint skip_case_ignorable (ts : list utoken) : option utoken :=
  match ts with
  | [] => None
  | UCp c :: r => if is_case_ignorable c then skip_case_ignorable r else Some (UCp c)
  | URaw b :: _ => Some (URaw b)
  end.

Definition cased_token (t : option utoken) : bool :=
  match t with
  | Some (UCp c) => is_cased c
  | _ => false
  end.

(** CPython's [handle_capital_sigma]: U+03A3 lowers to the final form
    U+03C2 when a cased letter precedes it and none follows it, skipping
    case-ignorable code points on both sides. [before_rev] is the text
    before it, nearest first. *)
Definition final_sigma (before_rev after : list utoken) : bool :=
  cased_token (skip_case_ignorable before_rev)
  && negb (cased_token (skip_case_ignorable after)).

Fixpoint lower_tokens (before_rev ts : list utoken) : list utoken :=
  match ts with
  | [] => []
  | t :: r =>
      let out :=
        match t with
        | UCp c =>
            if (c =? 931)%Z then [UCp (if final_sigma before_rev r then 962 else 963)%Z]
            else map UCp (lower_cp c)
        | URaw b => [URaw b]
        end in
      out ++ lower_tokens (t :: before_rev) r
  end.

(** [str.lower()]. *)
Definition str_lower (s : string) : string :=
  tokens_text (lower_tokens [] (utf8_tokens (String.length s) s)).

(** [lowercase_value(value)] (callbacks.py, lines 112-122). A dict is
    rebuilt from its items with [dict(...)]: the keys are distinct, so the
    new dict has them in the same order. A list, set or tuple is rebuilt
    with its own type [tp(...)]; [set(...)] merges elements that became
    equal. *)
Fixpoint lowercase_value (value : pyval) : pyval :=
  match value with
  | PDict kvs => PDict (map (fun kv => (fst kv, lowercase_value (snd kv))) kvs)
  | PStr s => PStr (str_lower s)
  | PList xs => PList (map lowercase_value xs)
  | PSet xs => PSet (py_set_of (map lowercase_value xs))
  | PTuple xs => PTuple (map lowercase_value xs)
  | v => v
  end.

(* ------------------------------------------------------------------ *)
(** ** [json.loads], after CPython's C scanner (strict mode)

    Every decoding failure is a [JSONDecodeError]; the messages are not
    modelled, nor the recursion limit on deeply nested input. *)

Definition is_ws (c : ascii) : bool :=
  Ascii.eqb c " " || Ascii.eqb c "009"%char || Ascii.eqb c "010"%char
  || Ascii.eqb c "013"%char.

Fixpoint skip_ws (s : string) : string :=
  match s with
  | String c r => if is_ws c then skip_ws r else s
  | EmptyString => s
  end.

Definition is_digit (c : ascii) : bool :=
  let n := nat_of_ascii c in (48 <=? n)%nat && (n <=? 57)%nat.

Definition hexval (c : ascii) : option Z :=
  let n := Z.of_nat (nat_of_ascii c) in
  if (48 <=? n)%Z && (n <=? 57)%Z then Some (n - 48)%Z
  else if (97 <=? n)%Z && (n <=? 102)%Z then Some (n - 87)%Z
  else if (65 <=? n)%Z && (n <=? 70)%Z then Some (n - 55)%Z
  else None.

(** Exactly four hex digits, as in [\uXXXX]. *)
Definition hex4 (s : string) : option (Z * string) :=
  match s with
  | String a (String b (String c (String d r))) =>
      match hexval a, hexval b, hexval c, hexval d with
      | Some x1, Some x2, Some x3, Some x4 =>
          Some (x1 * 4096 + x2 * 256 + x3 * 16 + x4, r)%Z
      | _, _, _, _ => None
      end
  | _ => None
  end.

(** The one-character escapes: quote, backslash, slash, b, f, n, r and t. *)
Definition simple_escape (e : ascii) : option ascii :=
  if Ascii.eqb e "034"%char then Some "034"%char
  else if Ascii.eqb e "092"%char then Some "092"%char
  else if Ascii.eqb e "/" then Some "/"%char
  else if Ascii.eqb e "b" then Some "008"%char
  else if Ascii.eqb e "f" then Some "012"%char
  else if Ascii.eqb e "n" then Some "010"%char
  else if Ascii.eqb e "r" then Some "013"%char
  else if Ascii.eqb e "t" then Some "009"%char
  else None.

Definition prepend (p : string) (tr : string * string) : string * string :=
  (p ++ fst tr, snd tr).

(** The body of a string literal after its opening quote: the decoded
    text and the input after the closing quote. A high surrogate escape
    directly followed by a low surrogate escape is joined. *)
Fixpoint scanstring (fuel : nat) (s : string) : option (string * string) :=
  match fuel with
  | O => None
  | S f =>
    match s with
    | EmptyString => None
    | String c r =>
      if Ascii.eqb c "034"%char then Some ("", r)
      else if Ascii.eqb c "092"%char then
        match r with
        | EmptyString => None
        | String e r' =>
          if Ascii.eqb e "u" then
            match hex4 r' with
            | None => None
            | Some (u, r'') =>
              let joined :=
                if (55296 <=? u)%Z && (u <=? 56319)%Z then
                  match r'' with
                  | String b (String u' r3) =>
                      if Ascii.eqb b "092"%char && Ascii.eqb u' "u" then
                        match hex4 r3 with
                        | Some (u2, r4) =>
                            if (56320 <=? u2)%Z && (u2 <=? 57343)%Z
                            then Some (65536 + (u - 55296) * 1024 + (u2 - 56320), r4)%Z
                            else None
                        | None => None
                        end
                      else None
                  | _ => None
                  end
                else None in
              let '(cp, rest) := match joined with Some p => p | None => (u, r'') end in
              option_map (prepend (utf8_encode cp)) (scanstring f rest)
            end
          else
            match simple_escape e with
            | Some c' => option_map (prepend (String c' "")) (scanstring f r')
            | None => None
            end
        end
      else if (nat_of_ascii c <? 32)%nat then None
      else option_map (prepend (String c "")) (scanstring f r)
    end
  end.

Fixpoint span_digits (s : string) : string * string :=
  match s with
  | String c r =>
      if is_digit c then let '(ds, rest) := span_digits r in (String c ds, rest)
      else ("", s)
  | EmptyString => ("", "")
  end.

Fixpoint digits_value (ds : string) (acc : Z) : Z :=
  match ds with
  | String c r => digits_value r (acc * 10 + Z.of_nat (nat_of_ascii c) - 48)%Z
  | EmptyString => acc
  end.

(** The exact value [m * 10^n]. *)
Definition decimal_q (m n : Z) : Q :=
  if (0 <=? n)%Z then inject_Z (m * 10 ^ n) else Qmake m (Z.to_pos (10 ^ (- n))).

(** [sys.get_int_max_str_digits()]: [int()] of a decimal text with more
    digits raises ValueError. *)
Definition int_max_str_digits : nat := 4300.

(** A number: an optional minus, then 0 or a nonzero digit and more
    digits, then optionally a dot and at least one digit, then optionally
    e or E, an optional sign and at least one digit. An integer gives an
    [int] (through [int()], with its digit limit), one with a fraction or
    an exponent a [float] (through [float()], rounded to binary64). *)
Definition match_number (s : string) : res (pyval * string) :=
  let '(neg, s1) :=
    match s with
    | String c r => if Ascii.eqb c "-" then (true, r) else (false, s)
    | EmptyString => (false, s)
    end in
  let int_part :=
    match s1 with
    | String c r =>
        if Ascii.eqb c "0" then Some ("0", r)
        else if is_digit c then let '(ds, r') := span_digits r in Some (String c ds, r')
        else None
    | EmptyString => None
    end in
  match int_part with
  | None => inl JSONDecodeError
  | Some (ids, s2) =>
    let '(frac, s3) :=
      match s2 with
      | String dot (String d r) =>
          if Ascii.eqb dot "." && is_digit d
          then let '(fs, r') := span_digits (String d r) in (Some fs, r')
          else (None, s2)
      | _ => (None, s2)
      end in
    let '(expo, s4) :=
      match s3 with
      | String e r =>
          if Ascii.eqb e "e" || Ascii.eqb e "E" then
            let '(eneg, r1) :=
              match r with
              | String sg r' =>
                  if Ascii.eqb sg "-" then (true, r')
                  else if Ascii.eqb sg "+" then (false, r') else (false, r)
              | EmptyString => (false, r)
              end in
            let '(es, r2) := span_digits r1 in
            if String.eqb es "" then (None, s3)
            else (Some (if eneg then (- digits_value es 0)%Z else digits_value es 0), r2)
          else (None, s3)
      | EmptyString => (None, s3)
      end in
    let fs := match frac with Some fs => fs | None => "" end in
    let m := digits_value (ids ++ fs) 0 in
    let m := if neg then (- m)%Z else m in
    match frac, expo with
    | None, None =>
        if (int_max_str_digits <? String.length ids)%nat then inl ValueError
        else inr (PInt m, s4)
    | _, _ =>
        let e := match expo with Some e => e | None => 0%Z end in
        inr (PFloat (round_binary64 (decimal_q m (e - Z.of_nat (String.length fs)))), s4)
    end
  end.

(** [scan_once]: one JSON value at the start of the input; a text that is
    not one is a JSONDecodeError. The fuel bounds the nesting depth;
    [json_loads] gives it the length of the input. *)
Fixpoint scan_once (fuel : nat) (s : string) : res (pyval * string) :=
  match fuel with
  | O => inl JSONDecodeError
  | S f =>
    match s with
    | EmptyString => inl JSONDecodeError
    | String c r =>
      if Ascii.eqb c "034"%char then
        match scanstring (String.length r) r with
        | Some (str, rest) => inr (PStr str, rest)
        | None => inl JSONDecodeError
        end
      else if Ascii.eqb c "{" then
        let fix obj_loop (g : nat) (s : string) (acc : list (pyval * pyval))
            : res (pyval * string) :=
          match g with
          | O => inl JSONDecodeError
          | S g' =>
            match s with
            | String q r =>
              if Ascii.eqb q "034"%char then
                match scanstring (String.length r) r with
                | None => inl JSONDecodeError
                | Some (key, r2) =>
                  match skip_ws r2 with
                  | String colon r3 =>
                    if Ascii.eqb colon ":" then
                      match scan_once f (skip_ws r3) with
                      | inl e => inl e
                      | inr (v, r4) =>
                        let acc' := dict_set acc (PStr key) v in
                        match skip_ws r4 with
                        | String d r5 =>
                            if Ascii.eqb d "}" then inr (PDict acc', r5)
                            else if Ascii.eqb d "," then obj_loop g' (skip_ws r5) acc'
                            else inl JSONDecodeError
                        | EmptyString => inl JSONDecodeError
                        end
                      end
                    else inl JSONDecodeError
                  | EmptyString => inl JSONDecodeError
                  end
                end
              else inl JSONDecodeError
            | EmptyString => inl JSONDecodeError
            end
          end in
        let r1 := skip_ws r in
        match r1 with
        | String d r2 =>
            if Ascii.eqb d "}" then inr (PDict [], r2)
            else obj_loop (String.length r1) r1 []
        | EmptyString => inl JSONDecodeError
        end
      else if Ascii.eqb c "[" then
        let fix arr_loop (g : nat) (s : string) (acc : list pyval)
            : res (pyval * string) :=
          match g with
          | O => inl JSONDecodeError
          | S g' =>
            match scan_once f s with
            | inl e => inl e
            | inr (v, r4) =>
              match skip_ws r4 with
              | String d r5 =>
                  if Ascii.eqb d "]" then inr (PList (rev (v :: acc)), r5)
                  else if Ascii.eqb d "," then arr_loop g' (skip_ws r5) (v :: acc)
                  else inl JSONDecodeError
              | EmptyString => inl JSONDecodeError
              end
            end
          end in
        let r1 := skip_ws r in
        match r1 with
        | String d r2 =>
            if Ascii.eqb d "]" then inr (PList [], r2)
            else arr_loop (String.length r1) r1 []
        | EmptyString => inl JSONDecodeError
        end
      else if String.prefix "null" s then inr (PNone, str_drop 4 s)
      else if String.prefix "true" s then inr (PBool true, str_drop 4 s)
      else if String.prefix "false" s then inr (PBool false, str_drop 5 s)
      else if String.prefix "NaN" s then inr (PFloat FNaN, str_drop 3 s)
      else if String.prefix "Infinity" s then inr (PFloat (FInf false), str_drop 8 s)
      else if String.prefix "-Infinity" s then inr (PFloat (FInf true), str_drop 9 s)
      else match_number s
    end
  end.

(** [JSONDecoder.decode(s)]: leading and trailing whitespace is skipped,
    anything else after the value is an error. *)
Definition json_decode (s : string) : res pyval :=
  let s1 := skip_ws s in
  match scan_once (S (String.length s1)) s1 with
  | inl e => inl e
  | inr (x, rest) => if String.eqb (skip_ws rest) "" then inr x else inl JSONDecodeError
  end.

(** The codecs [json.detect_encoding] chooses between. *)
Inductive json_encoding : Type :=
  | Enc_utf8 | Enc_utf8_sig
  | Enc_utf16 | Enc_utf16_be | Enc_utf16_le
  | Enc_utf32 | Enc_utf32_be | Enc_utf32_le.

Definition bytes_of (l : list Z) : string :=
  fold_right (fun z s => String (byte_of z) s) "" l.

Definition bom_utf8 : string := bytes_of [239; 187; 191]%Z.
Definition bom_utf16_le : string := bytes_of [255; 254]%Z.
Definition bom_utf16_be : string := bytes_of [254; 255]%Z.
Definition bom_utf32_le : string := bytes_of [255; 254; 0; 0]%Z.
Definition bom_utf32_be : string := bytes_of [0; 0; 254; 255]%Z.

Definition is_zero_byte (b : ascii) : bool := (byte_val b =? 0)%Z.

(** [json.detect_encoding(b)]. *)
Definition detect_encoding (b : string) : json_encoding :=
  if String.prefix bom_utf32_be b || String.prefix bom_utf32_le b then Enc_utf32
  else if String.prefix bom_utf16_be b || String.prefix bom_utf16_le b then Enc_utf16
  else if String.prefix bom_utf8 b then Enc_utf8_sig
  else
    match b with
    | String b0 (String b1 (String b2 (String b3 _))) =>
        if is_zero_byte b0 then (if is_zero_byte b1 then Enc_utf32_be else Enc_utf16_be)
        else if is_zero_byte b1 then
          (if is_zero_byte b2 && is_zero_byte b3 then Enc_utf32_le else Enc_utf16_le)
        else Enc_utf8
    | String b0 (String b1 EmptyString) =>
        if is_zero_byte b0 then Enc_utf16_be
        else if is_zero_byte b1 then Enc_utf16_le
        else Enc_utf8
    | _ => Enc_utf8
    end.

(** UTF-8 with [surrogatepass]: the code points, or [None] at the first
    ill-formed or truncated sequence. *)
Fixpoint utf8_decode (fuel : nat) (s : string) : option (list Z) :=
  match fuel with
  | O => Some []
  | S f =>
    match s with
    | EmptyString => Some []
    | _ =>
      match utf8_next s with
      | Some (cp, rest) => option_map (cons cp) (utf8_decode f rest)
      | None => None
      end
    end
  end.

(** The UTF-16 code units of the bytes, in the given byte order; [None]
    when a byte is left over. *)
Fixpoint utf16_units (big_endian : bool) (s : string) : option (list Z) :=
  match s with
  | EmptyString => Some []
  | String a (String b r) =>
      let u := if big_endian then (byte_val a * 256 + byte_val b)%Z
               else (byte_val b * 256 + byte_val a)%Z in
      option_map (cons u) (utf16_units big_endian r)
  | String _ EmptyString => None
  end.

(** The UTF-32 code units of the bytes; [None] when bytes are left over. *)
Fixpoint utf32_units (big_endian : bool) (s : string) : option (list Z) :=
  match s with
  | EmptyString => Some []
  | String a (String b (String c (String d r))) =>
      let '(w, x, y, z) := if big_endian then (a, b, c, d) else (d, c, b, a) in
      let u := (((byte_val w * 256 + byte_val x) * 256 + byte_val y) * 256 + byte_val z)%Z in
      option_map (cons u) (utf32_units big_endian r)
  | _ => None
  end.

Definition is_high_surrogate (u : Z) : bool := (55296 <=? u)%Z && (u <=? 56319)%Z.
Definition is_low_surrogate (u : Z) : bool := (56320 <=? u)%Z && (u <=? 57343)%Z.

(** UTF-16 code units to code points: a high surrogate followed by a low
    one is joined, any other surrogate passes as it is ([surrogatepass]). *)
Fixpoint join_surrogates (us : list Z) : list Z :=
  match us with
  | h :: ((l :: r) as rest) =>
      if is_high_surrogate h && is_low_surrogate l
      then (65536 + (h - 55296) * 1024 + (l - 56320))%Z :: join_surrogates r
      else h :: join_surrogates rest
  | _ => us
  end.

(** UTF-32 with [surrogatepass]: every unit is a code point up to
    U+10FFFF. *)
Definition utf32_decode (big_endian : bool) (s : string) : option (list Z) :=
  match utf32_units big_endian s with
  | Some us => if forallb (fun u => (u <=? 1114111)%Z) us then Some us else None
  | None => None
  end.

Definition utf16_decode (big_endian : bool) (s : string) : option (list Z) :=
  option_map join_surrogates (utf16_units big_endian s).

(** [b.decode(encoding, 'surrogatepass')], as code points; [None] for a
    UnicodeDecodeError. The [utf-8-sig], [utf-16] and [utf-32] codecs take
    off one leading byte order mark ([utf-16] and [utf-32] read it to
    choose the byte order, little-endian without one). *)
Definition decode_bytes (enc : json_encoding) (b : string) : option (list Z) :=
  let drop n := String.substring n (String.length b - n) b in
  match enc with
  | Enc_utf8 => utf8_decode (String.length b) b
  | Enc_utf8_sig =>
      let b' := if String.prefix bom_utf8 b then drop 3 else b in
      utf8_decode (String.length b') b'
  | Enc_utf16 =>
      if String.prefix bom_utf16_le b then utf16_decode false (drop 2)
      else if String.prefix bom_utf16_be b then utf16_decode true (drop 2)
      else utf16_decode false b
  | Enc_utf16_be => utf16_decode true b
  | Enc_utf16_le => utf16_decode false b
  | Enc_utf32 =>
      if String.prefix bom_utf32_le b then utf32_decode false (drop 4)
      else if String.prefix bom_utf32_be b then utf32_decode true (drop 4)
      else utf32_decode false b
  | Enc_utf32_be => utf32_decode true b
  | Enc_utf32_le => utf32_decode false b
  end.

Definition text_of_cps (cps : list Z) : string :=
  fold_right (fun cp s => utf8_encode cp ++ s) "" cps.

(** The [str] that [json.loads] parses from [bytes] or [bytearray]. *)
Definition bytes_text (b : string) : option string :=
  option_map text_of_cps (decode_bytes (detect_encoding b) b).

(** The UTF-8 byte order mark, U+FEFF. *)
Definition utf8_bom : string := utf8_encode 65279.

(** [json.loads(s)]: a [str] starting with U+FEFF is refused; [bytes] and
    [bytearray] are decoded first, with the codec [detect_encoding] picks
    and the [surrogatepass] error handler; any other type is a
    TypeError. *)
Definition json_loads (v : pyval) : res pyval :=
  match v with
  | PStr s => if String.prefix utf8_bom s then inl JSONDecodeError else json_decode s
  | PBytes b =>
      match bytes_text b with
      | Some s => json_decode s
      | None => inl UnicodeDecodeError
      end
  | _ => inl TypeError
  end.

(** JSON text written with single quotes in place of double quotes. *)
Fixpoint jtext (s : string) : string :=
  match s with
  | EmptyString => EmptyString
  | String c r => String (if Ascii.eqb c "'" then "034"%char else c) (jtext r)
  end.

Example json_loads_object :
  json_loads (PStr (jtext "{'customer_id': '42', 'n': [1, -2.5e1, true, null]}")) =
  inr (PDict [(PStr "customer_id", PStr "42");
              (PStr "n", PList [PInt 1; PFloat (FFin (-25)); PBool true; PNone])]).
Proof. vm_compute. reflexivity. Qed.

Example json_loads_malformed :
  json_loads (PStr "{") = inl JSONDecodeError /\
  json_loads (PStr "[1,]") = inl JSONDecodeError /\
  json_loads (PStr (jtext "{'a': 1} x")) = inl JSONDecodeError /\
  json_loads (PStr (jtext " {'a': 1, 'a': 2} ")) = inr (PDict [(PStr "a", PInt 2)]) /\
  json_loads (PStr (jtext "'\u00e9'")) = inr (PStr (utf8_encode 233)) /\
  json_loads (PStr (jtext "'\ud83d\ude00'")) = inr (PStr (utf8_encode 128512)) /\
  json_loads (PStr "01") = inl JSONDecodeError /\
  json_loads (PStr "0.5") = inr (PFloat (FFin (1 # 2))) /\
  json_loads (PInt 5) = inl TypeError.
Proof. vm_compute. repeat split. Qed.

Example json_loads_numbers :
  json_loads (PStr "1e400") = inr (PFloat (FInf false)) /\
  json_loads (PStr "-1e400") = inr (PFloat (FInf true)) /\
  json_loads (PStr "1e-400") = inr (PFloat (FFin 0)) /\
  float_repr (match json_loads (PStr "0.1") with inr (PFloat x) => x | _ => FNaN end) = "0.1" /\
  json_loads (PStr (String.concat "" (repeat "1" 4301))) = inl ValueError.
Proof. vm_compute. repeat split. Qed.

Example json_loads_bytes :
  json_loads (PBytes (jtext "{'a': 1}")) = inr (PDict [(PStr "a", PInt 1)]) /\
  json_loads (PBytes (bom_utf8 ++ "[1]")) = inr (PList [PInt 1]) /\
  json_loads (PBytes (bytes_of [91; 0; 49; 0; 93; 0]%Z)) = inr (PList [PInt 1]) /\
  json_loads (PBytes (bytes_of [34; 255; 34]%Z)) = inl UnicodeDecodeError.
Proof. vm_compute. repeat split. Qed.

(* ------------------------------------------------------------------ *)
(** ** Session state *)

(** ADK's [State], read and written by key. *)
Abbreviation session_state := (gmap string pyval).

(** [state[key]]. *)
Definition state_get (st : session_state) (key : string) : res pyval :=
  match st !! key with
  | Some v => inr v
  | None => inl KeyError
  end.

(* ------------------------------------------------------------------ *)
(** ** [rate_limit_callback] (callbacks.py, lines 36-82) *)

Definition RATE_LIMIT_SECS : Z := 60.
Definition RPM_QUOTA : Z := 10.

(** [llm_request.contents]: each content's parts, by their [text] field
    ([None] for a part without text). *)
Abbreviation llm_contents := (list (list (option string))).

(** The loop that turns an empty part text into a single space. *)
Definition blank_empty_parts (contents : llm_contents) : llm_contents :=
  map (map (fun t => match t with
                     | Some s => if String.eqb s "" then Some " " else Some s
                     | None => None
                     end)) contents.

(** What one call leaves behind: its outcome, the session state, the
    request contents, and the durations passed to [time.sleep]. *)
Record throttle_out : Type := {
  th_result : res unit;
  th_state : session_state;
  th_contents : llm_contents;
  th_sleeps : list pyval
}.

(** [now] is the reading of [time.time()] at the call. The state is
    written only after every read, so a raised exception leaves it as it
    was. *)
Definition rate_limit_callback (now : Q) (contents : llm_contents)
    (state : session_state) : throttle_out :=
  let contents' := blank_empty_parts contents in
  let nowv := PFloat (FFin now) in
  match state !! "timer_start" with
  | None =>
      {| th_result := inr tt;
         th_state := <["request_count" := PInt 1]> (<["timer_start" := nowv]> state);
         th_contents := contents';
         th_sleeps := [] |}
  | Some timer_start =>
    let step : res (session_state * list pyval) :=
      rc <-! state_get state "request_count" ;;
      request_count <-! py_add rc (PInt 1) ;;
      elapsed_secs <-! py_sub nowv timer_start ;;
      over <-! py_gt request_count RPM_QUOTA ;;
      if over then
        d <-! py_sub (PInt RATE_LIMIT_SECS) elapsed_secs ;;
        delay <-! py_add d (PInt 1) ;;
        positive <-! py_gt delay 0 ;;
        inr (<["request_count" := PInt 1]> (<["timer_start" := nowv]> state),
             if positive then [delay] else [])
      else inr (<["request_count" := request_count]> state, [])
    in
    match step with
    | inl e =>
        {| th_result := inl e; th_state := state; th_contents := contents'; th_sleeps := [] |}
    | inr (st', sleeps) =>
        {| th_result := inr tt; th_state := st'; th_contents := contents'; th_sleeps := sleeps |}
    end
  end.

(* ------------------------------------------------------------------ *)
(** ** [validate_customer_id] (callbacks.py, lines 84-110) *)

Definition msg_no_profile : string :=
  "No customer profile selected. Please select a profile.".

Definition msg_unparsable : string :=
  "Customer profile couldn't be parsed. Please reload the customer data.".

Definition msg_mismatch (customer_id stored_customer_id : pyval) : string :=
  "You cannot use the tool with customer_id " ++ py_str customer_id
  ++ ", only for " ++ py_str stored_customer_id ++ ".".

Definition validate_customer_id (customer_id : pyval) (session_state : session_state)
    : res (bool * string) :=
  match session_state !! "customer_profile" with
  | None => inr (false, msg_no_profile)
  | Some profile =>
    let attempt :=
      customer_data <-! json_loads profile ;;
      stored_customer_id <-! py_get customer_data (PStr "customer_id") PNone ;;
      if py_eq customer_id stored_customer_id then inr (true, "")
      else inr (false, msg_mismatch customer_id stored_customer_id) in
    match attempt with
    | inl JSONDecodeError | inl KeyError => inr (false, msg_unparsable)
    | other => other
    end
  end.

(* ------------------------------------------------------------------ *)
(** ** [before_tool] (callbacks.py, lines 126-157) *)

Definition approval_reply : pyval :=
  PDict [(PStr "status", PStr "approved");
         (PStr "message", PStr "You can approve this discount; no manager needed.")].

Definition cart_reply : pyval :=
  PDict [(PStr "result", PStr "I have added and removed the requested items.")].

(** [args.get(key)]. *)
Definition args_get (args : list (pyval * pyval)) (key : string) : pyval :=
  match dict_lookup args (PStr key) with
  | Some v => v
  | None => PNone
  end.

(** [v is True]. *)
Definition pyval_is_true (v : pyval) : bool :=
  match v with
  | PBool true => true
  | _ => false
  end.

(** The tool-specific rules, after the customer id check. *)
Definition before_tool_rules (tool_name : string) (args : list (pyval * pyval))
    : res pyval :=
  approval <-!
    (if String.eqb tool_name "sync_ask_for_approval" then
       let amount := args_get args "value" in
       (* [if amount and amount <= 10] *)
       if py_truthy amount then
         small <-! py_le amount 10 ;;
         inr (if small then Some approval_reply else None)
       else inr None
     else inr None) ;;
  match approval with
  | Some reply => inr reply
  | None =>
      if String.eqb tool_name "modify_cart"
         && pyval_is_true (args_get args "items_added")
         && pyval_is_true (args_get args "items_removed")
      then inr cart_reply
      else inr PNone
  end.

(** The guard's outcome together with the [args] dict the tool sees
    afterwards. [lowercase_value] builds a new structure and writes into
    none of its input; the guard drops what it returns (line 130), so the
    [args] dict is left as the caller passed it. *)
Definition before_tool (tool_name : string) (args : list (pyval * pyval))
    (state : session_state) : res pyval * list (pyval * pyval) :=
  let _ := lowercase_value (PDict args) in
  let result :=
    match dict_lookup args (PStr "customer_id") with
    | Some customer_id =>
        ve <-! validate_customer_id customer_id state ;;
        let '(valid, err) := ve in
        if negb valid then inr (PStr err) else before_tool_rules tool_name args
    | None => before_tool_rules tool_name args
    end in
  (result, args).

(* ------------------------------------------------------------------ *)
(** ** [before_agent] (callbacks.py, lines 176-245)

    The host objects are pydantic models: an attribute read
    [getattr(obj, name, None)] gives [None] when the attribute is missing
    or holds [None]; [model_dump] may fail. *)

Record run_config : Type := {
  rc_inputs : option pyval;
  rc_extra_kwargs : option pyval;
  rc_model_dump : res pyval
}.

Record invocation_context : Type := {
  inv_inputs : option pyval;
  inv_run_config : option run_config;
  inv_model_dump : res pyval
}.

Record callback_context : Type := {
  cc_invocation_context : option invocation_context;
  cc_state : session_state
}.

Definition as_dict (v : option pyval) : option (list (pyval * pyval)) :=
  match v with
  | Some (PDict kvs) => Some kvs
  | _ => None
  end.

(** [possible_sources]: the dict-valued [inputs] and [extra_kwargs] of
    the run configuration, then its dump when that succeeds as a dict. *)
Definition possible_sources (rc : option run_config) : list (list (pyval * pyval)) :=
  match rc with
  | None => []
  | Some rc =>
      match as_dict (rc_inputs rc) with Some d => [d] | None => [] end
      ++ match as_dict (rc_extra_kwargs rc) with Some d => [d] | None => [] end
      ++ match rc_model_dump rc with inr (PDict d) => [d] | _ => [] end
  end.

(** The loop over the sources: the first one with a top-level
    [sessionMetadata], or whose [inputs] dict has one, gives the value. *)
Fixpoint search_sources (sources : list (list (pyval * pyval))) : pyval :=
  match sources with
  | [] => PNone
  | source :: rest =>
      match dict_lookup source (PStr "sessionMetadata") with
      | Some v => v
      | None =>
          match as_dict (dict_lookup source (PStr "inputs")) with
          | Some inputs_candidate =>
              match dict_lookup inputs_candidate (PStr "sessionMetadata") with
              | Some v => v
              | None => search_sources rest
              end
          | None => search_sources rest
          end
      end
  end.

Definition before_agent (callback_context : callback_context) : res session_state :=
  let state := cc_state callback_context in
  match cc_invocation_context callback_context with
  | None => inr state
  | Some inv =>
    let session_meta :=
      match as_dict (inv_inputs inv) with
      | Some raw_inputs => args_get raw_inputs "sessionMetadata"
      | None => PNone
      end in
    let session_meta :=
      match session_meta with
      | PNone => search_sources (possible_sources (inv_run_config inv))
      | v => v
      end in
    if py_truthy session_meta then inr (<["session_metadata" := session_meta]> state)
    else
      (* diagnostics only: the failure of [inv.model_dump] is caught *)
      let _dump := match inv_model_dump inv with inr d => d | inl _ => PDict [] end in
      inr state
  end.

(* ------------------------------------------------------------------ *)
(** ** What lowercasing a value means *)

(** A value that is neither a string nor a dict, list, set or tuple. *)
Definition is_atom (v : pyval) : Prop :=
  match v with
  | PStr _ | PDict _ | PList _ | PSet _ | PTuple _ => False
  | _ => True
  end.

(** [lowercased v w]: [w] is [v] with every string value lowercased, the
    keys of every dict unchanged, every list, set and tuple rebuilt with
    its own type around the processed elements, and any other value as it
    was. *)
Inductive lowercased : pyval -> pyval -> Prop :=
  | lc_str s : lowercased (PStr s) (PStr (str_lower s))
  | lc_dict kvs kvs' :
      map fst kvs' = map fst kvs ->
      Forall2 lowercased (map snd kvs) (map snd kvs') ->
      lowercased (PDict kvs) (PDict kvs')
  | lc_list xs ys : Forall2 lowercased xs ys -> lowercased (PList xs) (PList ys)
  | lc_tuple xs ys : Forall2 lowercased xs ys -> lowercased (PTuple xs) (PTuple ys)
  | lc_set xs ys : Forall2 lowercased xs ys -> lowercased (PSet xs) (PSet (py_set_of ys))
  | lc_atom v : is_atom v -> lowercased v v.

(* ------------------------------------------------------------------ *)
(** ** Where session metadata can be found *)

Definition key_absent (d : list (pyval * pyval)) (key : string) : Prop :=
  dict_lookup d (PStr key) = None.

(** No top-level [sessionMetadata], and none in a nested [inputs] dict. *)
Definition no_metadata_in (d : list (pyval * pyval)) : Prop :=
  key_absent d "sessionMetadata" /\
  (forall d', dict_lookup d (PStr "inputs") = Some (PDict d') -> key_absent d' "sessionMetadata").

(** [sessionMetadata] is in none of the lookup locations: the direct
    [inputs], the run configuration's [inputs], [extra_kwargs] and dump. *)
Definition metadata_absent (inv : invocation_context) : Prop :=
  (forall d, inv_inputs inv = Some (PDict d) -> key_absent d "sessionMetadata") /\
  (forall rc, inv_run_config inv = Some rc ->
     (forall d, rc_inputs rc = Some (PDict d) -> no_metadata_in d) /\
     (forall d, rc_extra_kwargs rc = Some (PDict d) -> no_metadata_in d) /\
     (forall d, rc_model_dump rc = inr (PDict d) -> no_metadata_in d)).

(* ================================================================== *)
(** * Properties *)

Lemma Qcompare_inject_Z (a b : Z) : (inject_Z a ?= inject_Z b)%Q = Z.compare a b.
Proof. unfold Qcompare, inject_Z; simpl. now rewrite !Z.mul_1_r. Qed.

Lemma py_add_int (a b : Z) : py_add (PInt a) (PInt b) = inr (PInt (a + b)).
Proof. reflexivity. Qed.

Lemma py_gt_int (a c : Z) : py_gt (PInt a) c = inr (Z.gtb a c).
Proof.
  unfold py_gt; simpl. rewrite Qcompare_inject_Z.
  rewrite Z.gtb_ltb. destruct (Z.compare_spec a c) as [->| |];
    [rewrite Z.ltb_irrefl | rewrite (proj2 (Z.ltb_ge c a)) by lia | rewrite (proj2 (Z.ltb_lt c a)) by lia];
    reflexivity.
Qed.

(** Elapsed time from a numeric [timer_start] never raises. *)
Lemma py_sub_now_num (now : Q) (ts : pyval) (x : pyfloat) :
  py_numview ts = Some x ->
  py_sub (PFloat (FFin now)) ts = inr (PFloat (fadd (FFin now) (fneg x))).
Proof. intros H. destruct ts; simpl in *; try discriminate; inversion H; subst; reflexivity. Qed.

(** C7: in a session without [timer_start], the first call records the
    call time as [timer_start] and 1 as [request_count], touches no other
    key, returns normally and does not sleep. *)
Theorem rate_limit_first_call (now : Q) (contents : llm_contents) (state : session_state) :
  state !! "timer_start" = None ->
  let out := rate_limit_callback now contents state in
  th_result out = inr tt /\ th_sleeps out = [] /\
  th_state out !! "timer_start" = Some (PFloat (FFin now)) /\
  th_state out !! "request_count" = Some (PInt 1) /\
  (forall k, k <> "timer_start" -> k <> "request_count" -> th_state out !! k = state !! k).
Proof.
  intros Hfresh out. unfold out, rate_limit_callback. rewrite Hfresh. simpl.
  repeat split.
  - rewrite lookup_insert_ne by discriminate. apply lookup_insert_eq.
  - apply lookup_insert_eq.
  - intros k H1 H2. rewrite !lookup_insert_ne by congruence. reflexivity.
Qed.

Lemma rate_limit_first_call_witness :
  (∅ : session_state) !! "timer_start" = None /\
  th_state (rate_limit_callback 1000 [[Some ""]] ∅) !! "request_count" = Some (PInt 1).
Proof.
  split; [reflexivity |].
  apply (rate_limit_first_call 1000 [[Some ""]] ∅). reflexivity.
Defined.

(** C8: a later call whose incremented count stays within the quota of
    10 does not sleep, stores the incremented count and leaves
    [timer_start] (and every other key) as it was. *)
Theorem rate_limit_under_quota (now : Q) (contents : llm_contents) (state : session_state)
    (timer_start : pyval) (x : pyfloat) (n : Z) :
  state !! "timer_start" = Some timer_start ->
  py_numview timer_start = Some x ->
  state !! "request_count" = Some (PInt n) ->
  (n + 1 <= RPM_QUOTA)%Z ->
  let out := rate_limit_callback now contents state in
  th_result out = inr tt /\ th_sleeps out = [] /\
  th_state out = <["request_count" := PInt (n + 1)]> state /\
  th_state out !! "timer_start" = Some timer_start.
Proof.
  intros Hts Hnum Hrc Hq out. unfold out, rate_limit_callback. rewrite Hts.
  unfold state_get. rewrite Hrc. cbn [res_bind]. rewrite py_add_int.
  cbn [res_bind]. rewrite (py_sub_now_num now timer_start x Hnum). cbn [res_bind].
  rewrite py_gt_int. unfold RPM_QUOTA in Hq.
  replace (Z.gtb (n + 1) RPM_QUOTA) with false
    by (unfold RPM_QUOTA; symmetry; rewrite Z.gtb_ltb; apply Z.ltb_ge; lia).
  cbn. repeat split.
  rewrite lookup_insert_ne by discriminate. exact Hts.
Qed.

Lemma rate_limit_under_quota_witness :
  let st : session_state :=
    <["request_count" := PInt 3]> (<["timer_start" := PFloat (FFin 1000)]> ∅) in
  th_sleeps (rate_limit_callback 1010 [] st) = [].
Proof.
  intros st.
  apply (rate_limit_under_quota 1010 [] st (PFloat (FFin 1000)) (FFin 1000) 3);
    [reflexivity | reflexivity | reflexivity | unfold RPM_QUOTA; lia].
Defined.

(** C5: a call whose incremented count exceeds the quota of 10 computes
    [delay = 60 - elapsed + 1] with [elapsed = now - timer_start], sleeps
    exactly that long when the delay is positive and not at all otherwise,
    and in both cases resets the window: [timer_start] becomes the call
    time [now] and [request_count] becomes 1. *)
Theorem rate_limit_over_quota (now : Q) (contents : llm_contents) (state : session_state)
    (t : Q) (n : Z) :
  state !! "timer_start" = Some (PFloat (FFin t)) ->
  state !! "request_count" = Some (PInt n) ->
  (RPM_QUOTA < n + 1)%Z ->
  let delay := (inject_Z RATE_LIMIT_SECS - (now - t) + 1)%Q in
  let out := rate_limit_callback now contents state in
  th_result out = inr tt /\
  ((0 < delay)%Q -> th_sleeps out = [PFloat (FFin delay)]) /\
  ((delay <= 0)%Q -> th_sleeps out = []) /\
  th_state out = <["request_count" := PInt 1]> (<["timer_start" := PFloat (FFin now)]> state).
Proof.
  intros Hts Hrc Hq delay out. unfold out, rate_limit_callback. rewrite Hts.
  unfold state_get. rewrite Hrc. cbn [res_bind]. rewrite py_add_int.
  cbn [res_bind]. rewrite (py_sub_now_num now _ (FFin t)) by reflexivity. cbn [res_bind].
  rewrite py_gt_int.
  replace (Z.gtb (n + 1) RPM_QUOTA) with true
    by (symmetry; rewrite Z.gtb_ltb; apply Z.ltb_lt; lia).
  cbn [res_bind py_sub py_add py_intview py_numview fadd fneg].
  unfold py_gt, py_numview, fcompare.
  change (inject_Z RATE_LIMIT_SECS + - (now + - t) + inject_Z 1)%Q with delay.
  change (inject_Z 0) with 0%Q.
  cbn [res_bind]. repeat split.
  - intros Hpos. apply Qgt_alt in Hpos. now rewrite Hpos.
  - intros Hneg. apply (proj1 (Qle_alt _ _)) in Hneg.
    destruct (delay ?= 0)%Q eqn:E; [reflexivity | reflexivity | congruence].
Qed.

Lemma rate_limit_over_quota_witness :
  let st : session_state :=
    <["request_count" := PInt 10]> (<["timer_start" := PFloat (FFin 1000)]> ∅) in
  th_sleeps (rate_limit_callback 1020 [] st) = [PFloat (FFin 41)].
Proof.
  intros st.
  pose proof (rate_limit_over_quota 1020 [] st 1000 10 eq_refl eq_refl
                ltac:(unfold RPM_QUOTA; lia)) as [_ [Hpos _]].
  rewrite Hpos by (vm_compute; reflexivity).
  reflexivity.
Defined.

Lemma str_app_assoc (a b c : string) : (a ++ b) ++ c = a ++ (b ++ c).
Proof. induction a as [|ch a IH]; [reflexivity | exact (f_equal (String ch) IH)]. Qed.

(** [sub] occurs in [s]. *)
Definition contains (sub s : string) : Prop := exists pre post, s = pre ++ sub ++ post.

(** The validator, case by case on the stored profile. *)
Lemma validate_customer_id_cases (customer_id : pyval) (st : session_state) :
  validate_customer_id customer_id st =
  match st !! "customer_profile" with
  | None => inr (false, msg_no_profile)
  | Some profile =>
      match json_loads profile with
      | inl JSONDecodeError | inl KeyError => inr (false, msg_unparsable)
      | inl e => inl e
      | inr (PDict kvs) =>
          let stored := args_get kvs "customer_id" in
          if py_eq customer_id stored then inr (true, "")
          else inr (false, msg_mismatch customer_id stored)
      | inr _ => inl AttributeError
      end
  end.
Proof.
  unfold validate_customer_id.
  destruct (st !! "customer_profile") as [profile|]; [|reflexivity].
  destruct (json_loads profile) as [e|data]; [destruct e; reflexivity|].
  destruct data; try reflexivity.
  cbn [res_bind py_get]. unfold args_get.
  destruct (dict_lookup kvs (PStr "customer_id")); cbn [res_bind];
    destruct (py_eq _ _); reflexivity.
Qed.

(** C6: the validator answers [(True, "")] exactly when the candidate
    equals the [customer_id] of the JSON-parsed profile; without a profile
    it answers the "No customer profile selected" message; a profile
    whose JSON object holds another id gives a message naming that id; a
    profile string that is not valid JSON gives the "couldn't be parsed"
    message. (The validator writes nothing: its result is its only
    output.) *)
Theorem validate_customer_id_spec (customer_id : pyval) (st : session_state) :
  (st !! "customer_profile" = None ->
   validate_customer_id customer_id st =
   inr (false, "No customer profile selected. Please select a profile.")) /\
  (validate_customer_id customer_id st = inr (true, "") <->
   exists profile kvs,
     st !! "customer_profile" = Some profile /\
     json_loads profile = inr (PDict kvs) /\
     py_eq customer_id (args_get kvs "customer_id") = true) /\
  (forall profile kvs,
     st !! "customer_profile" = Some profile ->
     json_loads profile = inr (PDict kvs) ->
     py_eq customer_id (args_get kvs "customer_id") = false ->
     exists msg,
       validate_customer_id customer_id st = inr (false, msg) /\
       contains (py_str (args_get kvs "customer_id")) msg) /\
  (forall s,
     st !! "customer_profile" = Some (PStr s) ->
     json_loads (PStr s) = inl JSONDecodeError ->
     exists msg,
       validate_customer_id customer_id st = inr (false, msg) /\
       contains "couldn't be parsed" msg).
Proof.
  rewrite validate_customer_id_cases.
  split; [intros Hnone; rewrite Hnone; reflexivity |].
  split; [| split].
  - split.
    + destruct (st !! "customer_profile") as [profile|]; [|intros H; discriminate H].
      destruct (json_loads profile) as [e|data] eqn:Hj;
        [destruct e; cbn; intros H; discriminate H|].
      destruct data; try (cbn; intros H; discriminate H).
      cbv zeta.
      destruct (py_eq customer_id (args_get kvs "customer_id")) eqn:He;
        [|cbn; intros H; discriminate H].
      intros _. exists profile, kvs. auto.
    + intros (profile & kvs & Hp & Hj & He). rewrite Hp, Hj. cbv zeta. now rewrite He.
  - intros profile kvs Hp Hj He. rewrite Hp, Hj. cbv zeta. rewrite He.
    eexists. split; [reflexivity|].
    unfold msg_mismatch.
    exists ("You cannot use the tool with customer_id " ++ py_str customer_id ++ ", only for "), ".".
    now rewrite !str_app_assoc.
  - intros s Hp Hj. rewrite Hp, Hj.
    eexists. split; [reflexivity|].
    exists "Customer profile ", ". Please reload the customer data.". reflexivity.
Qed.

Lemma validate_customer_id_spec_witness :
  let st : session_state :=
    <["customer_profile" := PStr (jtext "{'customer_id': '42'}")]> ∅ in
  validate_customer_id (PStr "42") st = inr (true, "") /\
  (exists msg, validate_customer_id (PStr "7") st = inr (false, msg) /\ contains "42" msg) /\
  (exists msg,
     validate_customer_id (PStr "42") (<["customer_profile" := PStr "{customer_id"]> ∅)
     = inr (false, msg) /\ contains "couldn't be parsed" msg).
Proof.
  intros st.
  destruct (validate_customer_id_spec (PStr "42") st) as [_ [[_ Hmatch] _]].
  destruct (validate_customer_id_spec (PStr "7") st) as [_ [_ [Hmis _]]].
  destruct (validate_customer_id_spec (PStr "42") (<["customer_profile" := PStr "{customer_id"]> ∅))
    as [_ [_ [_ Hbad]]].
  split; [| split].
  - apply Hmatch. exists (PStr (jtext "{'customer_id': '42'}")), [(PStr "customer_id", PStr "42")].
    split; [reflexivity|]. split; [vm_compute; reflexivity|]. reflexivity.
  - apply (Hmis (PStr (jtext "{'customer_id': '42'}")) [(PStr "customer_id", PStr "42")]);
      [reflexivity | vm_compute; reflexivity | reflexivity].
  - apply (Hbad "{customer_id"); [reflexivity | vm_compute; reflexivity].
Defined.

(** C10: a profile string that parses to a JSON object without a
    [customer_id] key is not reported as unparsable: for a [str]
    candidate the validator answers the mismatch message naming [None]. *)
Theorem validate_customer_id_missing_key (c s : string) (st : session_state)
    (kvs : list (pyval * pyval)) :
  st !! "customer_profile" = Some (PStr s) ->
  json_loads (PStr s) = inr (PDict kvs) ->
  dict_lookup kvs (PStr "customer_id") = None ->
  validate_customer_id (PStr c) st =
  inr (false, "You cannot use the tool with customer_id " ++ c ++ ", only for None.").
Proof.
  intros Hp Hj Hk. rewrite validate_customer_id_cases, Hp, Hj. cbv zeta.
  unfold args_get. rewrite Hk. reflexivity.
Qed.

Lemma validate_customer_id_missing_key_witness :
  validate_customer_id (PStr "42")
    (<["customer_profile" := PStr (jtext "{'name': 'ann'}")]> ∅) =
  inr (false, "You cannot use the tool with customer_id 42, only for None.").
Proof.
  apply (validate_customer_id_missing_key "42" (jtext "{'name': 'ann'}") _
           [(PStr "name", PStr "ann")]);
    [reflexivity | vm_compute; reflexivity | reflexivity].
Defined.

(** C2 (defect): a profile holding the JSON text of a list parses, and
    the [.get] on the list raises [AttributeError], which the validator
    does not catch. *)
Theorem validate_customer_id_list_profile_raises :
  validate_customer_id (PStr "42") (<["customer_profile" := PStr "[1]"]> ∅) =
  inl AttributeError.
Proof. vm_compute. reflexivity. Qed.

Lemma Forall2_map_self (f : pyval -> pyval) (xs : list pyval) :
  Forall (fun x => lowercased x (f x)) xs -> Forall2 lowercased xs (map f xs).
Proof. induction 1; simpl; constructor; auto. Qed.

(** C9: [lowercase_value] keeps the keys of every dict, lowercases every
    string value at any depth, rebuilds every list, set and tuple with its
    own type around the processed elements, and returns any other value
    unchanged. *)
Theorem lowercase_value_lowercases (value : pyval) :
  lowercased value (lowercase_value value).
Proof.
  induction value using pyval_ind'; simpl;
    try (apply lc_atom; exact I).
  - apply lc_str.
  - apply lc_list. now apply Forall2_map_self.
  - apply lc_tuple. now apply Forall2_map_self.
  - apply lc_set. now apply Forall2_map_self.
  - apply lc_dict.
    + rewrite map_map. simpl. reflexivity.
    + rewrite map_map. simpl. clear H.
      induction H0 as [|kv kvs Hkv _ IH]; simpl; constructor; auto.
Qed.

(** C1 (defect): the guard leaves the [args] dict with its mixed-case
    strings, since the lowercased copy is dropped. *)
Theorem before_tool_args_not_lowercased :
  let args := [(PStr "query", PStr "Red Shoes")] in
  before_tool "search_products" args ∅ = (inr PNone, args) /\
  lowercase_value (PDict args) = PDict [(PStr "query", PStr "red shoes")] /\
  lowercase_value (PDict args) <> PDict args.
Proof. vm_compute. split; [reflexivity | split; [reflexivity | discriminate]]. Qed.

(** C3, as stated, fails: a [sessionMetadata] present in [inputs] with a
    falsy value (here an empty dict) is not copied into the state. *)
Lemma before_agent_empty_metadata_not_copied :
  let inv := {| inv_inputs := Some (PDict [(PStr "sessionMetadata", PDict [])]);
                inv_run_config := None;
                inv_model_dump := inr (PDict []) |} in
  let cc := {| cc_invocation_context := Some inv; cc_state := ∅ |} in
  before_agent cc = inr ∅ /\
  before_agent cc <> inr (<["session_metadata" := PDict []]> ∅).
Proof.
  intros inv cc. assert (H : before_agent cc = inr ∅) by reflexivity.
  split; [exact H|]. rewrite H. intros Heq.
  assert (Hs : (∅ : session_state) = <["session_metadata" := PDict []]> ∅) by congruence.
  clear Heq. rename Hs into Heq.
  apply (f_equal (fun m : session_state => m !! "session_metadata")) in Heq.
  rewrite lookup_insert_eq, lookup_empty in Heq. discriminate Heq.
Qed.

Lemma search_sources_absent (sources : list (list (pyval * pyval))) :
  Forall no_metadata_in sources -> search_sources sources = PNone.
Proof.
  induction 1 as [|d ds [Htop Hnest] _ IH]; simpl; [reflexivity|].
  unfold key_absent in Htop. rewrite Htop.
  destruct (dict_lookup d (PStr "inputs")) as [v|] eqn:Hin; simpl; [|exact IH].
  destruct v; simpl; try exact IH.
  unfold key_absent in Hnest. rewrite (Hnest kvs eq_refl). exact IH.
Qed.

(** The value found in the direct [inputs] dict decides, unless it is
    [None]: then the run configuration is searched. *)
Lemma before_agent_direct_lookup (cc : callback_context) (inv : invocation_context)
    (d : list (pyval * pyval)) (v : pyval) :
  cc_invocation_context cc = Some inv ->
  inv_inputs inv = Some (PDict d) ->
  dict_lookup d (PStr "sessionMetadata") = Some v ->
  let m := match v with
           | PNone => search_sources (possible_sources (inv_run_config inv))
           | _ => v
           end in
  before_agent cc =
    if py_truthy m then inr (<["session_metadata" := m]> (cc_state cc)) else inr (cc_state cc).
Proof.
  intros Hinv Hin Hd m. unfold before_agent. rewrite Hinv, Hin.
  cbn [as_dict]. unfold args_get. rewrite Hd. reflexivity.
Qed.

(** C3 as amended: a truthy [sessionMetadata] in the direct [inputs] dict
    is copied verbatim under [session_metadata] (no other key changes); a
    falsy value other than [None] is not copied and the state is left
    unchanged; a [None] value sends the lookup on to the run
    configuration, whose search result is stored when truthy; when
    [sessionMetadata] is in none of the lookup locations, the state is
    returned unchanged and no exception escapes. *)
Theorem before_agent_metadata (cc : callback_context) :
  (forall inv d v,
     cc_invocation_context cc = Some inv ->
     inv_inputs inv = Some (PDict d) ->
     dict_lookup d (PStr "sessionMetadata") = Some v ->
     py_truthy v = true ->
     before_agent cc = inr (<["session_metadata" := v]> (cc_state cc))) /\
  (forall inv d v,
     cc_invocation_context cc = Some inv ->
     inv_inputs inv = Some (PDict d) ->
     dict_lookup d (PStr "sessionMetadata") = Some v ->
     v <> PNone -> py_truthy v = false ->
     before_agent cc = inr (cc_state cc)) /\
  (forall inv d,
     cc_invocation_context cc = Some inv ->
     inv_inputs inv = Some (PDict d) ->
     dict_lookup d (PStr "sessionMetadata") = Some PNone ->
     let m := search_sources (possible_sources (inv_run_config inv)) in
     before_agent cc =
       if py_truthy m then inr (<["session_metadata" := m]> (cc_state cc))
       else inr (cc_state cc)) /\
  ((forall inv, cc_invocation_context cc = Some inv -> metadata_absent inv) ->
   before_agent cc = inr (cc_state cc)).
Proof.
  split; [|split; [|split]].
  - intros inv d v Hinv Hin Hd Ht.
    rewrite (before_agent_direct_lookup cc inv d v Hinv Hin Hd).
    destruct v; try discriminate Ht; rewrite Ht; reflexivity.
  - intros inv d v Hinv Hin Hd Hn Ht.
    rewrite (before_agent_direct_lookup cc inv d v Hinv Hin Hd).
    destruct v; try congruence; rewrite Ht; reflexivity.
  - intros inv d Hinv Hin Hd.
    exact (before_agent_direct_lookup cc inv d PNone Hinv Hin Hd).
  - intros Habs. unfold before_agent.
    destruct (cc_invocation_context cc) as [inv|] eqn:Hinv; [|reflexivity].
    destruct (Habs inv eq_refl) as [Hdirect Hrc].
    assert (Hfirst : match as_dict (inv_inputs inv) with
                     | Some raw_inputs => args_get raw_inputs "sessionMetadata"
                     | None => PNone
                     end = PNone).
    { destruct (inv_inputs inv) as [[]|] eqn:Hi; simpl; try reflexivity.
      unfold args_get. rewrite (Hdirect kvs eq_refl). reflexivity. }
    rewrite Hfirst.
    assert (Hsrc : search_sources (possible_sources (inv_run_config inv)) = PNone).
    { apply search_sources_absent. unfold possible_sources.
      destruct (inv_run_config inv) as [rc|]; [|constructor].
      destruct (Hrc rc eq_refl) as (Hi & Hx & Hdump).
      repeat apply Forall_app_2.
      - destruct (rc_inputs rc) as [[]|]; simpl; repeat constructor; auto;
          apply Hi; reflexivity.
      - destruct (rc_extra_kwargs rc) as [[]|]; simpl; repeat constructor; auto;
          apply Hx; reflexivity.
      - destruct (rc_model_dump rc) as [|[]]; simpl; repeat constructor; auto;
          apply Hdump; reflexivity. }
    rewrite Hsrc. reflexivity.
Qed.

Lemma before_agent_metadata_witness :
  let meta := PDict [(PStr "chat_id", PInt 7)] in
  let rc := {| rc_inputs := Some (PDict [(PStr "sessionMetadata", PStr "m")]);
               rc_extra_kwargs := None; rc_model_dump := inl AttributeError |} in
  let inv1 := {| inv_inputs := Some (PDict [(PStr "sessionMetadata", meta)]);
                 inv_run_config := None;
                 inv_model_dump := inl AttributeError |} in
  let inv2 := {| inv_inputs := Some (PDict [(PStr "sessionMetadata", PInt 0)]);
                 inv_run_config := Some rc;
                 inv_model_dump := inr (PDict []) |} in
  let inv3 := {| inv_inputs := Some (PDict [(PStr "sessionMetadata", PNone)]);
                 inv_run_config := Some rc;
                 inv_model_dump := inr (PDict []) |} in
  before_agent {| cc_invocation_context := Some inv1; cc_state := ∅ |} =
    inr (<["session_metadata" := meta]> ∅) /\
  before_agent {| cc_invocation_context := Some inv2; cc_state := ∅ |} = inr ∅ /\
  before_agent {| cc_invocation_context := Some inv3; cc_state := ∅ |} =
    inr (<["session_metadata" := PStr "m"]> ∅).
Proof.
  intros meta rc inv1 inv2 inv3. split; [|split].
  - destruct (before_agent_metadata {| cc_invocation_context := Some inv1; cc_state := ∅ |})
      as [Hcopy _].
    apply (Hcopy inv1 [(PStr "sessionMetadata", meta)] meta); reflexivity.
  - destruct (before_agent_metadata {| cc_invocation_context := Some inv2; cc_state := ∅ |})
      as [_ [Hfalsy _]].
    apply (Hfalsy inv2 [(PStr "sessionMetadata", PInt 0)] (PInt 0));
      reflexivity || discriminate.
  - destruct (before_agent_metadata {| cc_invocation_context := Some inv3; cc_state := ∅ |})
      as [_ [_ [Hnone _]]].
    exact (Hnone inv3 [(PStr "sessionMetadata", PNone)] eq_refl eq_refl eq_refl).
Defined.

(** The customer id check lets the call through: [customer_id] is not an
    argument, or it matches the session's profile. *)
Definition customer_id_ok (args : list (pyval * pyval)) (st : session_state) : Prop :=
  dict_lookup args (PStr "customer_id") = None \/
  exists c, dict_lookup args (PStr "customer_id") = Some c /\
            validate_customer_id c st = inr (true, "").

Lemma before_tool_reaches_rules (tool_name : string) (args : list (pyval * pyval))
    (st : session_state) :
  customer_id_ok args st ->
  before_tool tool_name args st = (before_tool_rules tool_name args, args).
Proof.
  intros [Hnone | (c & Hc & Hv)]; unfold before_tool.
  - rewrite Hnone. reflexivity.
  - rewrite Hc, Hv. reflexivity.
Qed.

Lemma py_truthy_num (v : pyval) (x : Q) :
  py_numview v = Some (FFin x) -> py_truthy v = negb (Qeq_bool x 0).
Proof.
  destruct v; simpl; intros H; try discriminate H; inversion H; subst; clear H.
  - destruct b; reflexivity.
  - unfold Qeq_bool, Qeq, inject_Z; simpl. rewrite Z.mul_1_r. reflexivity.
  - reflexivity.
Qed.

Lemma py_le_num (v : pyval) (x : Q) (c : Z) :
  py_numview v = Some (FFin x) ->
  py_le v c = inr (match (x ?= inject_Z c)%Q with Gt => false | _ => true end).
Proof. unfold py_le. intros ->. simpl. destruct (x ?= inject_Z c)%Q; reflexivity. Qed.

(** C4, as stated, fails: the customer id check runs first, so an
    approval request carrying a [customer_id] without a selected profile
    gets the remediation message, not the approval. *)
Lemma before_tool_approval_needs_valid_customer :
  let args := [(PStr "customer_id", PStr "7"); (PStr "value", PInt 5)] in
  fst (before_tool "sync_ask_for_approval" args ∅) = inr (PStr msg_no_profile) /\
  fst (before_tool "sync_ask_for_approval" args ∅) <> inr approval_reply.
Proof. vm_compute. split; [reflexivity | discriminate]. Qed.

(** C4 as amended: when the customer id check lets the call through, the
    approval tool with a nonzero numeric [value] of at most 10 gets the
    fixed approval dict; with a [value] above 10 (e.g. 11) or with no
    [value], the guard returns [None] and the call falls through. *)
Theorem before_tool_approval_rule (args : list (pyval * pyval)) (st : session_state) :
  customer_id_ok args st ->
  (forall v x,
     dict_lookup args (PStr "value") = Some v -> py_numview v = Some (FFin x) ->
     ~ (x == 0)%Q -> (x <= 10)%Q ->
     fst (before_tool "sync_ask_for_approval" args st) = inr approval_reply) /\
  (forall v x,
     dict_lookup args (PStr "value") = Some v -> py_numview v = Some (FFin x) ->
     (10 < x)%Q ->
     fst (before_tool "sync_ask_for_approval" args st) = inr PNone) /\
  (dict_lookup args (PStr "value") = None ->
   fst (before_tool "sync_ask_for_approval" args st) = inr PNone).
Proof.
  intros Hok. rewrite before_tool_reaches_rules by exact Hok. simpl fst.
  unfold before_tool_rules, args_get. simpl String.eqb. cbv iota.
  split; [| split].
  - intros v x Hv Hx Hnz Hle. rewrite Hv.
    rewrite (py_truthy_num v x Hx).
    replace (Qeq_bool x 0) with false
      by (symmetry; apply not_true_iff_false; intros E; apply Hnz; now apply Qeq_bool_eq).
    simpl negb. cbv iota. rewrite (py_le_num v x 10 Hx).
    apply (proj1 (Qle_alt _ _)) in Hle.
    destruct (x ?= inject_Z 10)%Q eqn:E; [reflexivity | reflexivity |].
    change 10%Q with (inject_Z 10) in Hle. congruence.
  - intros v x Hv Hx Hgt. rewrite Hv.
    rewrite (py_truthy_num v x Hx).
    destruct (Qeq_bool x 0); simpl negb; cbv iota; [reflexivity|].
    rewrite (py_le_num v x 10 Hx).
    apply (proj1 (Qlt_alt _ _)) in Hgt. change 10%Q with (inject_Z 10) in Hgt.
    rewrite <- Qcompare_antisym, Hgt. reflexivity.
  - intros Hv. rewrite Hv. reflexivity.
Qed.

Lemma before_tool_approval_rule_witness :
  fst (before_tool "sync_ask_for_approval" [(PStr "value", PInt 10)] ∅) = inr approval_reply /\
  fst (before_tool "sync_ask_for_approval" [(PStr "value", PInt 11)] ∅) = inr PNone.
Proof.
  destruct (before_tool_approval_rule [(PStr "value", PInt 10)] ∅ (or_introl eq_refl))
    as [Hsmall _].
  destruct (before_tool_approval_rule [(PStr "value", PInt 11)] ∅ (or_introl eq_refl))
    as [_ [Hbig _]].
  split.
  - apply (Hsmall (PInt 10) (inject_Z 10)); [reflexivity | reflexivity | vm_compute; discriminate |
                                  vm_compute; discriminate].
  - apply (Hbig (PInt 11) (inject_Z 11)); [reflexivity | reflexivity | vm_compute; reflexivity].
Defined.

(* ================================================================== *)
(** * Further properties of the callbacks *)

(** ** The request throttle *)

(** A later call, case by case on the quota. *)
Lemma rate_limit_later_call (now : Q) (contents : llm_contents) (state : session_state)
    (t : Q) (n : Z) :
  state !! "timer_start" = Some (PFloat (FFin t)) ->
  state !! "request_count" = Some (PInt n) ->
  th_result (rate_limit_callback now contents state) = inr tt /\
  th_state (rate_limit_callback now contents state) =
    if Z.gtb (n + 1) RPM_QUOTA
    then <["request_count" := PInt 1]> (<["timer_start" := PFloat (FFin now)]> state)
    else <["request_count" := PInt (n + 1)]> state.
Proof.
  intros Hts Hrc. unfold rate_limit_callback. rewrite Hts.
  unfold state_get. rewrite Hrc. cbn [res_bind]. rewrite py_add_int.
  cbn [res_bind]. rewrite (py_sub_now_num now _ (FFin t)) by reflexivity. cbn [res_bind].
  rewrite py_gt_int. destruct (Z.gtb (n + 1) RPM_QUOTA); cbn; [|split; reflexivity].
  split; reflexivity.
Qed.

(** A started quota window: [timer_start] is a float and [request_count]
    an int in [1, 10]. *)
Definition window_started (st : session_state) : Prop :=
  exists t n, st !! "timer_start" = Some (PFloat (FFin t)) /\
              st !! "request_count" = Some (PInt n) /\ (1 <= n <= RPM_QUOTA)%Z.

(** The states the throttle keeps: no window yet, or a started one. *)
Definition window_ok (st : session_state) : Prop :=
  st !! "timer_start" = None \/ window_started st.

Lemma rate_limit_step_window (now : Q) (contents : llm_contents) (state : session_state) :
  window_ok state ->
  th_result (rate_limit_callback now contents state) = inr tt /\
  window_started (th_state (rate_limit_callback now contents state)).
Proof.
  intros [Hnone | (t & n & Hts & Hrc & Hb)].
  - unfold rate_limit_callback. rewrite Hnone. split; [reflexivity|].
    exists now, 1%Z. cbn [th_state]. unfold RPM_QUOTA.
    rewrite lookup_insert_eq, lookup_insert_ne, lookup_insert_eq by discriminate.
    repeat split; lia.
  - destruct (rate_limit_later_call now contents state t n Hts Hrc) as [Hok Hst].
    split; [exact Hok|]. rewrite Hst. unfold RPM_QUOTA in *.
    destruct (Z.gtb (n + 1) 10) eqn:E.
    + exists now, 1%Z.
      rewrite lookup_insert_eq, lookup_insert_ne, lookup_insert_eq by discriminate.
      unfold RPM_QUOTA. repeat split; lia.
    + rewrite Z.gtb_ltb, Z.ltb_ge in E. exists t, (n + 1)%Z.
      rewrite lookup_insert_eq, lookup_insert_ne by discriminate.
      unfold RPM_QUOTA. repeat split; auto; lia.
Qed.

(** A call on a session without a window, or with a started one, returns
    normally and leaves a started window: [timer_start] a float and
    [request_count] between 1 and the quota, which it never exceeds. *)
Theorem rate_limit_keeps_window (now : Q) (contents : llm_contents) (state : session_state) :
  window_ok state ->
  th_result (rate_limit_callback now contents state) = inr tt /\
  window_started (th_state (rate_limit_callback now contents state)).
Proof. exact (rate_limit_step_window now contents state). Qed.

Lemma rate_limit_keeps_window_witness :
  let st := <["request_count" := PInt 10]> (<["timer_start" := PFloat (FFin 5)]> ∅) in
  window_ok st /\
  th_result (rate_limit_callback 30 [[Some "hi"]] st) = inr tt /\
  window_started (th_state (rate_limit_callback 30 [[Some "hi"]] st)).
Proof.
  intros st.
  assert (Hw : window_ok st).
  { right. exists 5%Q, 10%Z. unfold st, RPM_QUOTA.
    rewrite lookup_insert_ne, lookup_insert_eq, lookup_insert_eq by discriminate.
    repeat split; lia. }
  split; [exact Hw | apply rate_limit_keeps_window; exact Hw].
Defined.

(** A session's calls in order, each with its clock reading and request;
    the first exception stops the run. *)
Fixpoint run_throttle (calls : list (Q * llm_contents)) (state : session_state)
    : res session_state :=
  match calls with
  | [] => inr state
  | (now, contents) :: rest =>
      let out := rate_limit_callback now contents state in
      match th_result out with
      | inl e => inl e
      | inr _ => run_throttle rest (th_state out)
      end
  end.

(** From a fresh session, any non-empty sequence of calls runs without
    an exception and ends with a started window: [timer_start] a float
    and [request_count] between 1 and 10. *)
Theorem run_throttle_fresh_session (calls : list (Q * llm_contents)) :
  calls <> [] ->
  exists st, run_throttle calls ∅ = inr st /\ window_started st.
Proof.
  assert (Hgen : forall st, window_ok st -> calls <> [] ->
            exists st', run_throttle calls st = inr st' /\ window_started st').
  { induction calls as [|[now contents] rest IH]; intros st Hw Hne; [congruence|].
    simpl. destruct (rate_limit_step_window now contents st Hw) as [Hok Hst].
    rewrite Hok. destruct rest as [|call rest'].
    - simpl. eauto.
    - apply IH; [right; exact Hst | discriminate]. }
  intros Hne. apply Hgen; [left; reflexivity | exact Hne].
Qed.

Lemma run_throttle_fresh_session_witness :
  exists st, run_throttle [(5%Q, []); (6%Q, [[Some ""]])] ∅ = inr st /\ window_started st.
Proof. apply run_throttle_fresh_session. discriminate. Defined.

(** Every path of the throttle hands on the normalised contents. *)
Lemma rate_limit_contents (now : Q) (contents : llm_contents) (state : session_state) :
  th_contents (rate_limit_callback now contents state) = blank_empty_parts contents.
Proof.
  unfold rate_limit_callback.
  destruct (state !! "timer_start"); [|reflexivity].
  match goal with |- th_contents (match ?s with _ => _ end) = _ => destruct s as [e|[st' sl]] end;
    reflexivity.
Qed.

(** How one part's text is normalised. *)
Definition part_blanked (t t' : option string) : Prop :=
  (t = Some "" /\ t' = Some " ") \/ (t <> Some "" /\ t' = t).

(** Whatever the state, and even when the call raises, the request
    contents keep their shape; each empty part text becomes a single
    space and every other text (or missing text) is left as it was. *)
Theorem rate_limit_blanks_empty_parts (now : Q) (contents : llm_contents)
    (state : session_state) :
  Forall2 (Forall2 part_blanked) contents (th_contents (rate_limit_callback now contents state)).
Proof.
  rewrite rate_limit_contents. unfold blank_empty_parts.
  induction contents as [|parts rest IH]; constructor; [|exact IH].
  induction parts as [|t ts IHp]; constructor; [|exact IHp].
  unfold part_blanked. destruct t as [s|].
  - destruct (String.eqb_spec s ""); subst; [left; auto|right; split; [congruence|reflexivity]].
  - right. split; [discriminate|reflexivity].
Qed.

(** When the throttle raises, it has written nothing to the session
    state and has not slept. *)
Lemma rate_limit_exception_frame (now : Q) (contents : llm_contents) (state : session_state)
    (e : pyexc) :
  th_result (rate_limit_callback now contents state) = inl e ->
  th_state (rate_limit_callback now contents state) = state /\
  th_sleeps (rate_limit_callback now contents state) = [].
Proof.
  unfold rate_limit_callback.
  destruct (state !! "timer_start"); [|discriminate].
  match goal with |- context [match ?s with inl _ => _ | inr _ => _ end] =>
    destruct s as [e'|[st' sl]] end; cbn; [auto | discriminate].
Qed.

(** Once a window has started, a missing [request_count] raises
    KeyError and a string [request_count] or [timer_start] raises
    TypeError; in each case the state is left as it was and no sleep
    happens. *)
Theorem rate_limit_corrupt_state_raises (now : Q) (contents : llm_contents)
    (state : session_state) (ts : pyval) :
  state !! "timer_start" = Some ts ->
  (state !! "request_count" = None ->
     th_result (rate_limit_callback now contents state) = inl KeyError /\
     th_state (rate_limit_callback now contents state) = state /\
     th_sleeps (rate_limit_callback now contents state) = []) /\
  (forall s, state !! "request_count" = Some (PStr s) ->
     th_result (rate_limit_callback now contents state) = inl TypeError /\
     th_state (rate_limit_callback now contents state) = state /\
     th_sleeps (rate_limit_callback now contents state) = []) /\
  (forall n s, state !! "request_count" = Some (PInt n) -> ts = PStr s ->
     th_result (rate_limit_callback now contents state) = inl TypeError /\
     th_state (rate_limit_callback now contents state) = state /\
     th_sleeps (rate_limit_callback now contents state) = []).
Proof.
  intros Hts.
  assert (Hres : forall e, th_result (rate_limit_callback now contents state) = inl e ->
            th_result (rate_limit_callback now contents state) = inl e /\
            th_state (rate_limit_callback now contents state) = state /\
            th_sleeps (rate_limit_callback now contents state) = []).
  { intros e He. split; [exact He|]. exact (rate_limit_exception_frame now contents state e He). }
  split; [|split].
  - intros Hrc. apply Hres. unfold rate_limit_callback. rewrite Hts.
    unfold state_get. rewrite Hrc. reflexivity.
  - intros s Hrc. apply Hres. unfold rate_limit_callback. rewrite Hts.
    unfold state_get. rewrite Hrc. reflexivity.
  - intros n s Hrc ->. apply Hres. unfold rate_limit_callback. rewrite Hts.
    unfold state_get. rewrite Hrc. reflexivity.
Qed.

Lemma rate_limit_corrupt_state_raises_witness :
  th_result (rate_limit_callback 5 [] (<["timer_start" := PFloat (FFin 1)]> ∅)) = inl KeyError.
Proof.
  apply (proj1 (rate_limit_corrupt_state_raises 5 [] (<["timer_start" := PFloat (FFin 1)]> ∅)
                  (PFloat (FFin 1)) (lookup_insert_eq _ _ _))).
  reflexivity.
Defined.

(** ** The tool guard *)

(** The customer id check comes first, whatever the tool: a rejected id
    yields the validator's message, and an exception of the validator
    propagates out of the guard. *)
Theorem before_tool_customer_check_first (tool_name : string)
    (args : list (pyval * pyval)) (st : session_state) (c : pyval) :
  dict_lookup args (PStr "customer_id") = Some c ->
  (forall err, validate_customer_id c st = inr (false, err) ->
     fst (before_tool tool_name args st) = inr (PStr err)) /\
  (forall e, validate_customer_id c st = inl e ->
     fst (before_tool tool_name args st) = inl e).
Proof.
  intros Hc. unfold before_tool. simpl fst. rewrite Hc.
  split; intros x Hv; rewrite Hv; reflexivity.
Qed.

Lemma before_tool_customer_check_first_witness :
  fst (before_tool "modify_cart" [(PStr "customer_id", PStr "7")] ∅) = inr (PStr msg_no_profile).
Proof.
  apply (proj1 (before_tool_customer_check_first "modify_cart"
                  [(PStr "customer_id", PStr "7")] ∅ (PStr "7") eq_refl)).
  reflexivity.
Defined.

(** The cart rule: once the customer id check passes, [modify_cart] gets
    the fixed reply exactly when both [items_added] and [items_removed]
    are the boolean [True]; any other value of either (1, a non-empty
    string, a missing key) makes the guard return [None]. *)
Theorem before_tool_cart_rule (args : list (pyval * pyval)) (st : session_state) :
  customer_id_ok args st ->
  (args_get args "items_added" = PBool true -> args_get args "items_removed" = PBool true ->
     fst (before_tool "modify_cart" args st) = inr cart_reply) /\
  (args_get args "items_added" <> PBool true \/ args_get args "items_removed" <> PBool true ->
     fst (before_tool "modify_cart" args st) = inr PNone).
Proof.
  intros Hok. rewrite before_tool_reaches_rules by exact Hok. simpl fst.
  unfold before_tool_rules. simpl String.eqb. cbv iota beta. cbn [res_bind].
  split.
  - intros -> ->. reflexivity.
  - intros Hnot. unfold pyval_is_true.
    destruct (args_get args "items_added") as [| [|] | | | | | | | | |] eqn:Ea;
      try reflexivity;
      destruct (args_get args "items_removed") as [| [|] | | | | | | | | |] eqn:Er;
      try reflexivity.
    destruct Hnot; congruence.
Qed.

Lemma before_tool_cart_rule_witness :
  fst (before_tool "modify_cart"
         [(PStr "items_added", PBool true); (PStr "items_removed", PInt 1)] ∅) = inr PNone.
Proof.
  apply (proj2 (before_tool_cart_rule
                  [(PStr "items_added", PBool true); (PStr "items_removed", PInt 1)] ∅
                  (or_introl eq_refl))).
  right. discriminate.
Defined.

(** Tools other than the two the guard knows are let through: once the
    customer id check passes, the guard returns [None]. *)
Theorem before_tool_other_tools_pass (tool_name : string) (args : list (pyval * pyval))
    (st : session_state) :
  customer_id_ok args st ->
  tool_name <> "sync_ask_for_approval" -> tool_name <> "modify_cart" ->
  fst (before_tool tool_name args st) = inr PNone.
Proof.
  intros Hok H1 H2. rewrite before_tool_reaches_rules by exact Hok. simpl fst.
  unfold before_tool_rules.
  apply String.eqb_neq in H1, H2. rewrite H1. cbn [res_bind]. rewrite H2. reflexivity.
Qed.

Lemma before_tool_other_tools_pass_witness :
  fst (before_tool "get_product_recommendations" [(PStr "value", PInt 3)] ∅) = inr PNone.
Proof.
  apply before_tool_other_tools_pass; [left; reflexivity | discriminate | discriminate].
Defined.

(** Approval edge cases: a falsy [value] (0, 0.0, False, None, an empty
    string or container) is never approved; a truthy value that is not a
    number (a string such as "5", a list, an object) makes [amount <= 10]
    raise TypeError out of the guard. *)
Theorem before_tool_approval_edge_values (args : list (pyval * pyval)) (st : session_state) :
  customer_id_ok args st ->
  (py_truthy (args_get args "value") = false ->
     fst (before_tool "sync_ask_for_approval" args st) = inr PNone) /\
  (py_truthy (args_get args "value") = true -> py_numview (args_get args "value") = None ->
     fst (before_tool "sync_ask_for_approval" args st) = inl TypeError).
Proof.
  intros Hok. rewrite before_tool_reaches_rules by exact Hok. simpl fst.
  unfold before_tool_rules. simpl String.eqb. cbv iota beta zeta.
  split.
  - intros Ht. rewrite Ht. reflexivity.
  - intros Ht Hn. rewrite Ht. unfold py_le. rewrite Hn. reflexivity.
Qed.

Lemma before_tool_approval_edge_values_witness :
  fst (before_tool "sync_ask_for_approval" [(PStr "value", PStr "5")] ∅) = inl TypeError.
Proof.
  apply (proj2 (before_tool_approval_edge_values [(PStr "value", PStr "5")] ∅
                  (or_introl eq_refl))); reflexivity.
Defined.

(** Non-finite amounts: [float('-inf')] passes [amount <= 10] and is
    approved, while [float('inf')] and [float('nan')] are not. *)
Theorem before_tool_approval_nonfinite (args : list (pyval * pyval)) (st : session_state) :
  customer_id_ok args st ->
  (args_get args "value" = PFloat (FInf true) ->
     fst (before_tool "sync_ask_for_approval" args st) = inr approval_reply) /\
  (args_get args "value" = PFloat (FInf false) \/ args_get args "value" = PFloat FNaN ->
     fst (before_tool "sync_ask_for_approval" args st) = inr PNone).
Proof.
  intros Hok. rewrite before_tool_reaches_rules by exact Hok. simpl fst.
  unfold before_tool_rules. simpl String.eqb. cbv iota beta zeta.
  split.
  - intros ->. reflexivity.
  - intros [-> | ->]; reflexivity.
Qed.

Lemma before_tool_approval_nonfinite_witness :
  fst (before_tool "sync_ask_for_approval" [(PStr "value", PFloat (FInf true))] ∅)
    = inr approval_reply.
Proof.
  apply (proj1 (before_tool_approval_nonfinite [(PStr "value", PFloat (FInf true))] ∅
                  (or_introl eq_refl))); reflexivity.
Defined.

(** ** The session metadata extractor *)

(** A [sessionMetadata] key that is present in the direct [inputs] with a
    falsy value other than [None] ({}, an empty string, 0) stops the
    search: the run configuration is not consulted, even when it carries
    metadata, and the state is left unchanged. *)
Theorem before_agent_falsy_direct_shadows (cc : callback_context) (inv : invocation_context)
    (d : list (pyval * pyval)) (v : pyval) :
  cc_invocation_context cc = Some inv ->
  inv_inputs inv = Some (PDict d) ->
  dict_lookup d (PStr "sessionMetadata") = Some v ->
  v <> PNone -> py_truthy v = false ->
  before_agent cc = inr (cc_state cc).
Proof.
  intros Hinv Hin Hd Hn Ht. unfold before_agent. rewrite Hinv, Hin.
  cbn [as_dict]. unfold args_get. rewrite Hd.
  assert (Hm : match v with
               | PNone => search_sources (possible_sources (inv_run_config inv))
               | v0 => v0
               end = v) by (destruct v; [congruence | reflexivity ..]).
  rewrite Hm, Ht. reflexivity.
Qed.

Lemma before_agent_falsy_direct_shadows_witness :
  let rc := {| rc_inputs := Some (PDict [(PStr "sessionMetadata", PStr "m")]);
               rc_extra_kwargs := None; rc_model_dump := inr (PDict []) |} in
  let inv := {| inv_inputs := Some (PDict [(PStr "sessionMetadata", PStr "")]);
                inv_run_config := Some rc; inv_model_dump := inr (PDict []) |} in
  before_agent {| cc_invocation_context := Some inv; cc_state := ∅ |} = inr ∅.
Proof.
  intros rc inv.
  apply (before_agent_falsy_direct_shadows
           {| cc_invocation_context := Some inv; cc_state := ∅ |} inv
           [(PStr "sessionMetadata", PStr "")] (PStr "")); reflexivity || discriminate.
Defined.

(** The fallback through the run configuration, when the direct [inputs]
    give nothing: [run_config.inputs] is searched before [extra_kwargs]
    and the dump, so its truthy [sessionMetadata] is stored whatever the
    later sources hold; and with neither attribute a dict, a
    [sessionMetadata] nested in the dump's [inputs] dict is found. *)
Theorem before_agent_run_config_fallback (cc : callback_context) (inv : invocation_context)
    (rc : run_config) (v : pyval) :
  cc_invocation_context cc = Some inv ->
  match as_dict (inv_inputs inv) with
  | Some raw => dict_lookup raw (PStr "sessionMetadata") = None
  | None => True
  end ->
  inv_run_config inv = Some rc ->
  py_truthy v = true ->
  (forall d, rc_inputs rc = Some (PDict d) -> dict_lookup d (PStr "sessionMetadata") = Some v ->
     before_agent cc = inr (<["session_metadata" := v]> (cc_state cc))) /\
  (forall d i, as_dict (rc_inputs rc) = None -> as_dict (rc_extra_kwargs rc) = None ->
     rc_model_dump rc = inr (PDict d) ->
     dict_lookup d (PStr "sessionMetadata") = None ->
     dict_lookup d (PStr "inputs") = Some (PDict i) ->
     dict_lookup i (PStr "sessionMetadata") = Some v ->
     before_agent cc = inr (<["session_metadata" := v]> (cc_state cc))).
Proof.
  intros Hinv Hraw Hrc Ht.
  assert (Hdirect : forall m,
            search_sources (possible_sources (Some rc)) = m -> py_truthy m = true ->
            before_agent cc = inr (<["session_metadata" := m]> (cc_state cc))).
  { intros m Hs Hm. unfold before_agent. rewrite Hinv, Hrc.
    destruct (as_dict (inv_inputs inv)) as [raw|].
    - unfold args_get. rewrite Hraw. rewrite Hs, Hm. reflexivity.
    - rewrite Hs, Hm. reflexivity. }
  split.
  - intros d Hi Hd. apply (Hdirect v); [|exact Ht].
    unfold possible_sources. rewrite Hi. simpl. rewrite Hd. reflexivity.
  - intros d i Hi He Hdump Hd Hinp Hv. apply (Hdirect v); [|exact Ht].
    unfold possible_sources. rewrite Hi, He, Hdump. simpl.
    rewrite Hd, Hinp. simpl. rewrite Hv. reflexivity.
Qed.

Lemma before_agent_run_config_fallback_witness :
  let rc := {| rc_inputs := Some (PDict [(PStr "sessionMetadata", PStr "m")]);
               rc_extra_kwargs := Some (PDict [(PStr "sessionMetadata", PStr "x")]);
               rc_model_dump := inl TypeError |} in
  let inv := {| inv_inputs := None; inv_run_config := Some rc;
                inv_model_dump := inl TypeError |} in
  before_agent {| cc_invocation_context := Some inv; cc_state := ∅ |}
    = inr (<["session_metadata" := PStr "m"]> ∅).
Proof.
  intros rc inv.
  apply (proj1 (before_agent_run_config_fallback
                  {| cc_invocation_context := Some inv; cc_state := ∅ |} inv rc (PStr "m")
                  eq_refl I eq_refl eq_refl) [(PStr "sessionMetadata", PStr "m")]);
    reflexivity.
Defined.

(** ** [lowercase_value] *)

(** [str.lower] is idempotent. The tables are closed: a lowered code point
    lowers to itself and is never U+03A3; re-encoding the lowered text and
    splitting it again gives back the same tokens, raw bytes included. *)


Definition in_cp_range (c : Z) : bool := (0 <=? c)%Z && (c <=? 1114111)%Z.

Definition lower_fixed_b (d : Z) : bool :=
  negb (d =? 931)%Z && in_cp_range d &&
  match lower_cp d with [e] => (e =? d)%Z | _ => false end.

Definition run_members (run : Z * Z * Z * Z) : list Z :=
  let '(lo, hi, step, _) := run in
  map (fun k => lo + Z.of_nat k * step)%Z (seq 0 (S (Z.to_nat ((hi - lo) / step)))).

Definition lower_runs_ok : bool :=
  forallb (fun run => let '(lo, hi, step, delta) := run in
             (0 <? step)%Z && forallb (fun c => lower_fixed_b (c + delta)) (run_members run))
    lower_runs.

Lemma lower_runs_ok_true : lower_runs_ok = true.
Proof. vm_compute. reflexivity. Qed.

Definition lower_fixed (d : Z) : Prop := d <> 931%Z /\ (0 <= d <= 1114111)%Z /\ lower_cp d = [d].

Lemma lower_fixed_b_spec (d : Z) : lower_fixed_b d = true -> lower_fixed d.
Proof.
  unfold lower_fixed_b, in_cp_range, lower_fixed.
  destruct (lower_cp d) as [|e [|]] eqn:E; rewrite ?andb_false_r; try discriminate.
  intros H. apply andb_prop in H as [H He]. apply andb_prop in H as [Hn H].
  apply andb_prop in H as [H1 H2]. apply Z.eqb_eq in He. subst e.
  apply negb_true_iff, Z.eqb_neq in Hn. apply Z.leb_le in H1. apply Z.leb_le in H2.
  repeat split; auto.
Qed.

Lemma in_run_members (lo hi step delta c : Z) :
  (0 < step)%Z -> (lo <= c <= hi)%Z -> ((c - lo) mod step = 0)%Z ->
  In c (run_members (lo, hi, step, delta)).
Proof.
  intros Hs Hc Hm. unfold run_members. apply in_map_iff.
  exists (Z.to_nat ((c - lo) / step)). split.
  - rewrite Z2Nat.id by (apply Z.div_pos; lia).
    pose proof (Z.div_mod (c - lo) step ltac:(lia)) as Hd. lia.
  - apply in_seq. split; [lia|].
    assert ((c - lo) / step <= (hi - lo) / step)%Z by (apply Z.div_le_mono; lia).
    assert (0 <= (c - lo) / step)%Z by (apply Z.div_pos; lia). lia.
Qed.

Lemma lower_cp_fixed (c : Z) :
  (0 <= c <= 1114111)%Z -> c <> 931%Z -> Forall lower_fixed (lower_cp c).
Proof.
  intros Hr Hn. assert (HL : lower_cp c = lower_cp c) by reflexivity.
  unfold lower_cp at 2 in HL. rewrite HL.
  destruct (c =? 304)%Z eqn:E304.
  - repeat constructor; apply lower_fixed_b_spec; vm_compute; reflexivity.
  - destruct (find _ lower_runs) as [[[[lo hi] step] delta]|] eqn:Hf.
    + apply find_some in Hf as [Hin Hp].
      apply andb_prop in Hp as [Hp Hmod]. apply andb_prop in Hp as [Hlo Hhi].
      apply Z.leb_le in Hlo. apply Z.leb_le in Hhi. apply Z.eqb_eq in Hmod.
      pose proof lower_runs_ok_true as Hok. unfold lower_runs_ok in Hok.
      rewrite forallb_forall in Hok. specialize (Hok _ Hin). cbv beta iota in Hok.
      apply andb_prop in Hok as [Hs Hall]. apply Z.ltb_lt in Hs.
      rewrite forallb_forall in Hall.
      constructor; [|constructor]. apply lower_fixed_b_spec, Hall.
      apply in_run_members; auto.
    + constructor; [|constructor]. repeat split; auto; lia.
Qed.

Lemma lower_cp_nonempty (c : Z) : lower_cp c <> [].
Proof.
  unfold lower_cp. destruct (c =? 304)%Z; [discriminate|].
  destruct (find _ lower_runs) as [[[[? ?] ?] ?]|]; discriminate.
Qed.


Lemma byte_val_of (z : Z) : (0 <= z < 256)%Z -> byte_val (byte_of z) = z.
Proof.
  intros H. unfold byte_val, byte_of. rewrite nat_ascii_embedding by lia. lia.
Qed.

Lemma byte_of_val (b : ascii) : byte_of (byte_val b) = b.
Proof. unfold byte_val, byte_of. rewrite Nat2Z.id. apply ascii_nat_embedding. Qed.

Lemma byte_val_bound (b : ascii) : (0 <= byte_val b < 256)%Z.
Proof. unfold byte_val. pose proof (nat_ascii_bounded b). lia. Qed.

Lemma byte_in_spec (lo hi : Z) (b : ascii) :
  byte_in lo hi b = true <-> (lo <= byte_val b <= hi)%Z.
Proof. unfold byte_in. rewrite andb_true_iff, !Z.leb_le. tauto. Qed.

Definition is_cont (b : ascii) : bool := byte_in 128 191 b.

Lemma utf8_next_encode (cp : Z) (r : string) :
  (0 <= cp <= 1114111)%Z -> utf8_next (utf8_encode cp ++ r) = Some (cp, r).
Proof.
  intros H. unfold utf8_encode.
  destruct (Z.ltb_spec cp 128); [|destruct (Z.ltb_spec cp 2048); [|destruct (Z.ltb_spec cp 65536)]];
    simpl; unfold byte_in.
  - rewrite byte_val_of by lia. destruct (Z.ltb_spec cp 128); [reflexivity | lia].
  - pose proof (Z.div_mod cp 64 ltac:(lia)). pose proof (Z.mod_pos_bound cp 64 ltac:(lia)).
    assert (2 <= cp / 64 < 32)%Z by (split; [apply Z.div_le_lower_bound | apply Z.div_lt_upper_bound]; lia).
    rewrite !byte_val_of by lia.
    destruct (Z.ltb_spec (192 + cp / 64) 128); [lia|].
    replace ((194 <=? 192 + cp / 64) && (192 + cp / 64 <=? 223))%Z with true
      by (symmetry; apply andb_true_iff; rewrite !Z.leb_le; lia).
    replace ((128 <=? 128 + cp mod 64) && (128 + cp mod 64 <=? 191))%Z with true
      by (symmetry; apply andb_true_iff; rewrite !Z.leb_le; lia).
    f_equal. f_equal. lia.
  - pose proof (Z.div_mod cp 64 ltac:(lia)). pose proof (Z.mod_pos_bound cp 64 ltac:(lia)).
    pose proof (Z.div_mod (cp / 64) 64 ltac:(lia)). pose proof (Z.mod_pos_bound (cp / 64) 64 ltac:(lia)).
    assert (E : (cp / 4096 = cp / 64 / 64)%Z) by (rewrite Z.div_div by lia; reflexivity).
    assert (0 <= cp / 4096 < 16)%Z by (split; [apply Z.div_pos | apply Z.div_lt_upper_bound]; lia).
    assert (cp / 4096 = 0 -> 32 <= cp / 64 mod 64)%Z.
    { intros Hz. rewrite E in Hz. assert (32 <= cp / 64)%Z by (apply Z.div_le_lower_bound; lia). lia. }
    rewrite !byte_val_of by lia.
    destruct (Z.ltb_spec (224 + cp / 4096) 128); [lia|].
    replace ((194 <=? 224 + cp / 4096) && (224 + cp / 4096 <=? 223))%Z with false
      by (symmetry; apply andb_false_iff; right; apply Z.leb_gt; lia).
    replace ((224 <=? 224 + cp / 4096) && (224 + cp / 4096 <=? 239))%Z with true
      by (symmetry; apply andb_true_iff; rewrite !Z.leb_le; lia).
    replace ((128 <=? 128 + cp mod 64) && (128 + cp mod 64 <=? 191))%Z with true
      by (symmetry; apply andb_true_iff; rewrite !Z.leb_le; lia).
    destruct (Z.eqb_spec (224 + cp / 4096) 224).
    + replace ((160 <=? 128 + cp / 64 mod 64) && (128 + cp / 64 mod 64 <=? 191))%Z with true
        by (symmetry; apply andb_true_iff; rewrite !Z.leb_le; lia).
      simpl. f_equal. f_equal. lia.
    + replace ((128 <=? 128 + cp / 64 mod 64) && (128 + cp / 64 mod 64 <=? 191))%Z with true
        by (symmetry; apply andb_true_iff; rewrite !Z.leb_le; lia).
      simpl. f_equal. f_equal. lia.
  - pose proof (Z.div_mod cp 64 ltac:(lia)). pose proof (Z.mod_pos_bound cp 64 ltac:(lia)).
    pose proof (Z.div_mod (cp / 64) 64 ltac:(lia)). pose proof (Z.mod_pos_bound (cp / 64) 64 ltac:(lia)).
    pose proof (Z.div_mod (cp / 4096) 64 ltac:(lia)). pose proof (Z.mod_pos_bound (cp / 4096) 64 ltac:(lia)).
    assert (E1 : (cp / 4096 = cp / 64 / 64)%Z) by (rewrite Z.div_div by lia; reflexivity).
    assert (E2 : (cp / 262144 = cp / 4096 / 64)%Z) by (rewrite Z.div_div by lia; reflexivity).
    assert (0 <= cp / 262144 < 5)%Z by (split; [apply Z.div_pos | apply Z.div_lt_upper_bound]; lia).
    assert (cp / 262144 = 0 -> 16 <= cp / 4096 mod 64)%Z.
    { intros Hz. rewrite E2 in Hz. assert (16 <= cp / 4096)%Z by (apply Z.div_le_lower_bound; lia). lia. }
    assert (cp / 262144 = 4 -> cp / 4096 mod 64 < 16)%Z.
    { intros Hz. rewrite E2 in Hz. lia. }
    rewrite !byte_val_of by lia.
    destruct (Z.ltb_spec (240 + cp / 262144) 128); [lia|].
    replace ((194 <=? 240 + cp / 262144) && (240 + cp / 262144 <=? 223))%Z with false
      by (symmetry; apply andb_false_iff; right; apply Z.leb_gt; lia).
    replace ((224 <=? 240 + cp / 262144) && (240 + cp / 262144 <=? 239))%Z with false
      by (symmetry; apply andb_false_iff; right; apply Z.leb_gt; lia).
    replace ((240 <=? 240 + cp / 262144) && (240 + cp / 262144 <=? 244))%Z with true
      by (symmetry; apply andb_true_iff; rewrite !Z.leb_le; lia).
    replace ((128 <=? 128 + cp mod 64) && (128 + cp mod 64 <=? 191))%Z with true
      by (symmetry; apply andb_true_iff; rewrite !Z.leb_le; lia).
    replace ((128 <=? 128 + cp / 64 mod 64) && (128 + cp / 64 mod 64 <=? 191))%Z with true
      by (symmetry; apply andb_true_iff; rewrite !Z.leb_le; lia).
    replace ((if (240 + cp / 262144 =? 240)%Z then 144 else 128) <=? 128 + cp / 4096 mod 64)%Z
      with true.
    2:{ symmetry. destruct (Z.eqb_spec (240 + cp / 262144) 240); apply Z.leb_le; [|lia].
        assert (cp / 262144 = 0)%Z by lia. lia. }
    replace (128 + cp / 4096 mod 64 <=? (if (240 + cp / 262144 =? 244)%Z then 143 else 191))%Z
      with true.
    2:{ symmetry. destruct (Z.eqb_spec (240 + cp / 262144) 244); apply Z.leb_le; lia. }
    simpl. f_equal. f_equal. lia.
Qed.

Ltac byte_facts :=
  repeat match goal with
  | H : byte_in _ _ _ = true |- _ => apply byte_in_spec in H
  | H : (_ && _)%bool = true |- _ => apply andb_prop in H as [? ?]
  | H : (_ <=? _)%Z = true |- _ => apply Z.leb_le in H
  | H : (_ <? _)%Z = true |- _ => apply Z.ltb_lt in H
  | H : (_ <? _)%Z = false |- _ => apply Z.ltb_ge in H
  | H : (_ =? _)%Z = true |- _ => apply Z.eqb_eq in H
  | H : (_ =? _)%Z = false |- _ => apply Z.eqb_neq in H
  end.

Lemma utf8_next_decode (s : string) (cp : Z) (r : string) :
  utf8_next s = Some (cp, r) -> s = utf8_encode cp ++ r /\ (0 <= cp <= 1114111)%Z.
Proof.
  destruct s as [|b0 r0]; [discriminate|]. cbn [utf8_next].
  pose proof (byte_val_bound b0) as B0.
  destruct (byte_val b0 <? 128)%Z eqn:C0.
  { intros H. injection H as <- <-. byte_facts. split; [|lia].
    unfold utf8_encode. destruct (Z.ltb_spec (byte_val b0) 128); [|lia].
    simpl. rewrite byte_of_val. reflexivity. }
  destruct ((194 <=? byte_val b0) && (byte_val b0 <=? 223))%Z eqn:C1.
  { destruct r0 as [|b1 r1]; [discriminate|].
    destruct (byte_in 128 191 b1) eqn:C2; [|discriminate].
    intros H. injection H as <- <-. byte_facts.
    pose proof (byte_val_bound b1).
    set (cp := ((byte_val b0 - 192) * 64 + (byte_val b1 - 128))%Z).
    pose proof (Z.div_mod cp 64 ltac:(lia)). pose proof (Z.mod_pos_bound cp 64 ltac:(lia)).
    assert (Q : (cp / 64 = byte_val b0 - 192)%Z) by lia.
    assert (M : (cp mod 64 = byte_val b1 - 128)%Z) by lia.
    split; [|lia].
    unfold utf8_encode. destruct (Z.ltb_spec cp 128); [lia|]. destruct (Z.ltb_spec cp 2048); [|lia].
    rewrite Q, M. replace (192 + (byte_val b0 - 192))%Z with (byte_val b0) by lia.
    replace (128 + (byte_val b1 - 128))%Z with (byte_val b1) by lia.
    rewrite !byte_of_val. reflexivity. }
  destruct ((224 <=? byte_val b0) && (byte_val b0 <=? 239))%Z eqn:C3.
  { destruct r0 as [|b1 [|b2 r2]]; try discriminate.
    destruct (byte_in (if (byte_val b0 =? 224)%Z then 160 else 128) 191 b1 && byte_in 128 191 b2)
      eqn:C4; [|discriminate].
    intros H. injection H as <- <-. apply andb_prop in C4 as [C4 C5].
    assert (L1 : (byte_val b0 = 224 -> 160 <= byte_val b1)%Z).
    { intros E. destruct (Z.eqb_spec (byte_val b0) 224); [|contradiction].
      apply byte_in_spec in C4. lia. }
    assert (L2 : (128 <= byte_val b1 <= 191)%Z).
    { destruct (byte_val b0 =? 224)%Z; apply byte_in_spec in C4; lia. }
    clear C4. byte_facts.
    set (cp := ((byte_val b0 - 224) * 4096 + (byte_val b1 - 128) * 64 + (byte_val b2 - 128))%Z).
    pose proof (Z.div_mod cp 64 ltac:(lia)). pose proof (Z.mod_pos_bound cp 64 ltac:(lia)).
    pose proof (Z.div_mod (cp / 64) 64 ltac:(lia)). pose proof (Z.mod_pos_bound (cp / 64) 64 ltac:(lia)).
    assert (E : (cp / 4096 = cp / 64 / 64)%Z) by (rewrite Z.div_div by lia; reflexivity).
    assert (Q1 : (cp / 64 = (byte_val b0 - 224) * 64 + (byte_val b1 - 128))%Z) by lia.
    assert (M : (cp mod 64 = byte_val b2 - 128)%Z) by lia.
    assert (Q2 : (cp / 4096 = byte_val b0 - 224)%Z) by lia.
    assert (M2 : (cp / 64 mod 64 = byte_val b1 - 128)%Z) by lia.
    assert (2048 <= cp)%Z by (destruct (Z.eq_dec (byte_val b0) 224%Z); [specialize (L1 e)|]; lia).
    split; [|lia].
    unfold utf8_encode. destruct (Z.ltb_spec cp 128); [lia|]. destruct (Z.ltb_spec cp 2048); [lia|].
    destruct (Z.ltb_spec cp 65536); [|lia].
    rewrite Q2, M2, M. replace (224 + (byte_val b0 - 224))%Z with (byte_val b0) by lia.
    replace (128 + (byte_val b1 - 128))%Z with (byte_val b1) by lia.
    replace (128 + (byte_val b2 - 128))%Z with (byte_val b2) by lia.
    rewrite !byte_of_val. reflexivity. }
  destruct ((240 <=? byte_val b0) && (byte_val b0 <=? 244))%Z eqn:C6; [|discriminate].
  destruct r0 as [|b1 [|b2 [|b3 r3]]]; try discriminate.
  destruct (byte_in (if (byte_val b0 =? 240)%Z then 144 else 128)
              (if (byte_val b0 =? 244)%Z then 143 else 191) b1
            && byte_in 128 191 b2 && byte_in 128 191 b3) eqn:C4; [|discriminate].
  intros H. injection H as <- <-. apply andb_prop in C4 as [C4 C8].
  apply andb_prop in C4 as [C4 C7].
  assert (L1 : (byte_val b0 = 240 -> 144 <= byte_val b1)%Z).
  { intros E. destruct (Z.eqb_spec (byte_val b0) 240); [|contradiction].
    destruct (Z.eqb_spec (byte_val b0) 244); [lia|]. apply byte_in_spec in C4. lia. }
  assert (L3 : (byte_val b0 = 244 -> byte_val b1 <= 143)%Z).
  { intros E. destruct (Z.eqb_spec (byte_val b0) 244); [|contradiction].
    destruct (Z.eqb_spec (byte_val b0) 240); [lia|]. apply byte_in_spec in C4. lia. }
  assert (L2 : (128 <= byte_val b1 <= 191)%Z).
  { destruct (byte_val b0 =? 240)%Z, (byte_val b0 =? 244)%Z; apply byte_in_spec in C4; lia. }
  clear C4. byte_facts.
  set (cp := ((byte_val b0 - 240) * 262144 + (byte_val b1 - 128) * 4096
              + (byte_val b2 - 128) * 64 + (byte_val b3 - 128))%Z).
  pose proof (Z.div_mod cp 64 ltac:(lia)). pose proof (Z.mod_pos_bound cp 64 ltac:(lia)).
  pose proof (Z.div_mod (cp / 64) 64 ltac:(lia)). pose proof (Z.mod_pos_bound (cp / 64) 64 ltac:(lia)).
  pose proof (Z.div_mod (cp / 4096) 64 ltac:(lia)). pose proof (Z.mod_pos_bound (cp / 4096) 64 ltac:(lia)).
  assert (E1 : (cp / 4096 = cp / 64 / 64)%Z) by (rewrite Z.div_div by lia; reflexivity).
  assert (E2 : (cp / 262144 = cp / 4096 / 64)%Z) by (rewrite Z.div_div by lia; reflexivity).
  assert (M : (cp mod 64 = byte_val b3 - 128)%Z) by lia.
  assert (Q1 : (cp / 64 = (byte_val b0 - 240) * 4096 + (byte_val b1 - 128) * 64 + (byte_val b2 - 128))%Z) by lia.
  assert (M1 : (cp / 64 mod 64 = byte_val b2 - 128)%Z) by lia.
  assert (Q2 : (cp / 4096 = (byte_val b0 - 240) * 64 + (byte_val b1 - 128))%Z) by lia.
  assert (M2 : (cp / 4096 mod 64 = byte_val b1 - 128)%Z) by lia.
  assert (Q3 : (cp / 262144 = byte_val b0 - 240)%Z) by lia.
  assert (65536 <= cp <= 1114111)%Z.
  { destruct (Z.eq_dec (byte_val b0) 240%Z) as [Ea|]; [specialize (L1 Ea)|];
    (destruct (Z.eq_dec (byte_val b0) 244%Z) as [Eb|]; [specialize (L3 Eb)|]); lia. }
  split; [|lia].
  unfold utf8_encode. destruct (Z.ltb_spec cp 128); [lia|]. destruct (Z.ltb_spec cp 2048); [lia|].
  destruct (Z.ltb_spec cp 65536); [lia|].
  rewrite Q3, M2, M1, M. replace (240 + (byte_val b0 - 240))%Z with (byte_val b0) by lia.
  replace (128 + (byte_val b1 - 128))%Z with (byte_val b1) by lia.
  replace (128 + (byte_val b2 - 128))%Z with (byte_val b2) by lia.
  replace (128 + (byte_val b3 - 128))%Z with (byte_val b3) by lia.
  rewrite !byte_of_val. reflexivity.
Qed.


Lemma utf8_encode_head (cp : Z) :
  (0 <= cp <= 1114111)%Z -> exists b t, utf8_encode cp = String b t /\ is_cont b = false.
Proof.
  intros H. unfold utf8_encode, is_cont.
  destruct (Z.ltb_spec cp 128); [|destruct (Z.ltb_spec cp 2048); [|destruct (Z.ltb_spec cp 65536)]];
    (eexists _, _; split; [reflexivity|]); apply not_true_is_false; rewrite byte_in_spec.
  - rewrite byte_val_of by lia. lia.
  - assert (2 <= cp / 64 < 32)%Z by (split; [apply Z.div_le_lower_bound | apply Z.div_lt_upper_bound]; lia).
    rewrite byte_val_of by lia. lia.
  - assert (0 <= cp / 4096 < 16)%Z by (split; [apply Z.div_pos | apply Z.div_lt_upper_bound]; lia).
    rewrite byte_val_of by lia. lia.
  - assert (0 <= cp / 262144 < 5)%Z by (split; [apply Z.div_pos | apply Z.div_lt_upper_bound]; lia).
    rewrite byte_val_of by lia. lia.
Qed.

(** The continuation bytes at the start of a text, at most [n] of them. *)
Fixpoint cont_prefix (n : nat) (s : string) : string :=
  match n, s with
  | S n', String b r => if is_cont b then String b (cont_prefix n' r) else ""
  | _, _ => ""
  end.

Fixpoint all_cont (p : string) : bool :=
  match p with
  | "" => true
  | String b r => is_cont b && all_cont r
  end.

Lemma cont_prefix_app (p r : string) (n : nat) :
  all_cont p = true -> String.length p <= n ->
  exists q, cont_prefix n (p ++ r) = p ++ q.
Proof.
  revert n. induction p as [|b p IH]; intros n Hc Hl.
  - exists (cont_prefix n r). reflexivity.
  - destruct n as [|n]; [simpl in Hl; lia|]. simpl in Hc. apply andb_prop in Hc as [Hb Hp].
    simpl. rewrite Hb. destruct (IH n Hp ltac:(simpl in Hl; lia)) as [q Hq].
    exists q. rewrite Hq. reflexivity.
Qed.

Lemma cont_prefix_is_prefix (n : nat) (x p q : string) :
  cont_prefix n x = p ++ q -> exists x', x = p ++ x'.
Proof.
  revert n x. induction p as [|b p IH]; intros n x H; [exists x; reflexivity|].
  destruct n as [|n]; [discriminate|]. destruct x as [|c x]; [discriminate|].
  simpl in H. destruct (is_cont c); [|discriminate]. injection H as -> H.
  destruct (IH n x H) as [x' ->]. exists x'. reflexivity.
Qed.

Lemma utf8_next_shape (b : ascii) (x : string) (cp : Z) (r : string) :
  utf8_next (String b x) = Some (cp, r) ->
  (byte_val b < 128)%Z \/
  exists p, x = p ++ r /\ all_cont p = true /\ String.length p <= 3 /\
            forall y, utf8_next (String b (p ++ y)) = Some (cp, y).
Proof.
  cbn [utf8_next]. destruct (Z.ltb_spec (byte_val b) 128); [left; assumption|]. right.
  destruct ((194 <=? byte_val b) && (byte_val b <=? 223))%Z eqn:C1.
  { destruct x as [|b1 r1]; [discriminate|].
    destruct (byte_in 128 191 b1) eqn:C2; [|discriminate].
    match goal with H : Some _ = Some _ |- _ => rename H into Hs end. injection Hs as <- <-. exists (String b1 "").
    split; [reflexivity|]. split; [simpl; unfold is_cont; rewrite C2; reflexivity|].
    split; [simpl; lia|]. intros y. simpl. rewrite C2. reflexivity. }
  destruct ((224 <=? byte_val b) && (byte_val b <=? 239))%Z eqn:C3.
  { destruct x as [|b1 [|b2 r2]]; try discriminate.
    destruct (byte_in (if (byte_val b =? 224)%Z then 160 else 128) 191 b1 && byte_in 128 191 b2)
      eqn:C4; [|discriminate].
    match goal with H : Some _ = Some _ |- _ => rename H into Hs end. injection Hs as <- <-. exists (String b1 (String b2 "")).
    split; [reflexivity|]. split.
    { apply andb_prop in C4 as [C4 C5]. simpl. unfold is_cont. rewrite C5.
      apply byte_in_spec in C4. rewrite andb_true_r. apply byte_in_spec.
      destruct (byte_val b =? 224)%Z; lia. }
    split; [simpl; lia|]. intros y. simpl. rewrite C4. reflexivity. }
  destruct ((240 <=? byte_val b) && (byte_val b <=? 244))%Z eqn:C6; [|discriminate].
  destruct x as [|b1 [|b2 [|b3 r3]]]; try discriminate.
  destruct (byte_in (if (byte_val b =? 240)%Z then 144 else 128)
              (if (byte_val b =? 244)%Z then 143 else 191) b1
            && byte_in 128 191 b2 && byte_in 128 191 b3) eqn:C4; [|discriminate].
  match goal with H : Some _ = Some _ |- _ => rename H into Hs end. injection Hs as <- <-. exists (String b1 (String b2 (String b3 ""))).
  split; [reflexivity|]. split.
  { apply andb_prop in C4 as [C4 C8]. apply andb_prop in C4 as [C4 C7].
    simpl. unfold is_cont. rewrite C7, C8. rewrite !andb_true_r. apply byte_in_spec.
    apply byte_in_spec in C4. destruct (byte_val b =? 240)%Z, (byte_val b =? 244)%Z; lia. }
  split; [simpl; lia|]. intros y. simpl. rewrite C4. reflexivity.
Qed.

(** Whether a byte starts a well-formed sequence depends only on the
    continuation bytes after it. *)
Lemma utf8_next_none_cont (b : ascii) (x y : string) :
  cont_prefix 3 x = cont_prefix 3 y ->
  utf8_next (String b x) = None -> utf8_next (String b y) = None.
Proof.
  intros Hxy Hx. destruct (utf8_next (String b y)) as [[cp r]|] eqn:Hy; [|reflexivity].
  exfalso. destruct (utf8_next_shape b y cp r Hy) as [Ha | (p & -> & Hc & Hl & Hall)].
  - cbn [utf8_next] in Hx. destruct (Z.ltb_spec (byte_val b) 128); [discriminate | lia].
  - destruct (cont_prefix_app p r 3 Hc Hl) as [q Hq]. rewrite <- Hxy in Hq.
    destruct (cont_prefix_is_prefix 3 x p q Hq) as [x' ->].
    rewrite Hall in Hx. discriminate.
Qed.


(** Token lists as [utf8_tokens] produces them: code points in range,
    and raw bytes that start no well-formed sequence. *)
Inductive tok_wf : list utoken -> Prop :=
  | wf_nil : tok_wf []
  | wf_cp c r : (0 <= c <= 1114111)%Z -> tok_wf r -> tok_wf (UCp c :: r)
  | wf_raw b r : utf8_next (String b (tokens_text r)) = None -> tok_wf r -> tok_wf (URaw b :: r).

Lemma str_length_app (s t : string) :
  String.length (s ++ t) = String.length s + String.length t.
Proof. induction s as [|c s IH]; simpl; [reflexivity | rewrite IH; reflexivity]. Qed.

Lemma utf8_encode_length (cp : Z) :
  (0 <= cp <= 1114111)%Z -> 1 <= String.length (utf8_encode cp).
Proof. intros H. destruct (utf8_encode_head cp H) as (b & t & -> & _). simpl. lia. Qed.

Lemma utf8_tokens_wf (fuel : nat) (s : string) :
  String.length s <= fuel ->
  tok_wf (utf8_tokens fuel s) /\ tokens_text (utf8_tokens fuel s) = s.
Proof.
  revert s. induction fuel as [|f IH]; intros s Hl.
  - destruct s; [|simpl in Hl; lia]. split; [constructor | reflexivity].
  - destruct s as [|b r]; [split; [constructor | reflexivity]|].
    cbn [utf8_tokens]. destruct (utf8_next (String b r)) as [[cp rest]|] eqn:Hn.
    + destruct (utf8_next_decode _ _ _ Hn) as [Hs Hr].
      assert (Hlen : String.length rest <= f).
      { pose proof (utf8_encode_length cp Hr).
        rewrite Hs, str_length_app in Hl. lia. }
      destruct (IH rest Hlen) as [Hw Ht]. split; [constructor; assumption|].
      cbn [tokens_text]. rewrite Ht. symmetry. exact Hs.
    + destruct (IH r ltac:(simpl in Hl; lia)) as [Hw Ht]. split.
      * constructor; [rewrite Ht; exact Hn | exact Hw].
      * cbn [tokens_text]. rewrite Ht. reflexivity.
Qed.

Lemma utf8_tokens_reparse (ts : list utoken) :
  tok_wf ts -> forall fuel, String.length (tokens_text ts) <= fuel ->
  utf8_tokens fuel (tokens_text ts) = ts.
Proof.
  induction 1 as [|c r Hc Hw IH|b r Hn Hw IH]; intros fuel Hl.
  - destruct fuel; reflexivity.
  - cbn [tokens_text] in *. destruct (utf8_encode_head c Hc) as (b & t & Hbt & _).
    rewrite Hbt in *. simpl in Hl.
    destruct fuel as [|f]; [lia|].
    change (String b t +:+ tokens_text r) with (String b (t +:+ tokens_text r)). cbn [utf8_tokens].
    assert (Hn : utf8_next (String b (t ++ tokens_text r)) = Some (c, tokens_text r)).
    { change (String b (t ++ tokens_text r)) with (String b t ++ tokens_text r).
      rewrite <- Hbt. apply utf8_next_encode, Hc. }
    rewrite Hn, IH; [reflexivity|]. rewrite str_length_app in Hl. lia.
  - cbn [tokens_text] in *. cbn [String.length] in Hl. destruct fuel as [|f]; [lia|].
    cbn [utf8_tokens]. rewrite Hn, IH; [reflexivity | lia].
Qed.

(** How [lower_tokens] rewrites a token list: raw bytes are kept, and
    each code point becomes a non-empty list of code points in range. *)
Inductive lowering_rel : list utoken -> list utoken -> Prop :=
  | lr_nil : lowering_rel [] []
  | lr_raw b r r' : lowering_rel r r' -> lowering_rel (URaw b :: r) (URaw b :: r')
  | lr_cp c cs r r' :
      (0 <= c <= 1114111)%Z -> cs <> [] -> Forall (fun d => 0 <= d <= 1114111)%Z cs ->
      lowering_rel r r' -> lowering_rel (UCp c :: r) (map UCp cs ++ r').

Lemma lowering_rel_prefix (r r' : list utoken) :
  lowering_rel r r' -> forall n, cont_prefix n (tokens_text r) = cont_prefix n (tokens_text r').
Proof.
  induction 1 as [|b r r' _ IH|c cs r r' Hc Hne Hcs _ IH]; intros n.
  - reflexivity.
  - destruct n as [|n]; [reflexivity|]. cbn [tokens_text cont_prefix].
    rewrite IH. reflexivity.
  - destruct cs as [|d ds]; [contradiction|]. inversion Hcs as [|? ? Hd _]; subst.
    destruct (utf8_encode_head c Hc) as (b & t & Hbt & Hb).
    destruct (utf8_encode_head d Hd) as (b' & t' & Hbt' & Hb').
    cbn [map app tokens_text]. rewrite Hbt, Hbt'.
    destruct n as [|n]; [reflexivity|]. simpl. rewrite Hb, Hb'. reflexivity.
Qed.

Lemma tok_wf_cps (cs : list Z) (r : list utoken) :
  Forall (fun d => 0 <= d <= 1114111)%Z cs -> tok_wf r -> tok_wf (map UCp cs ++ r).
Proof. induction 1; intros Hr; simpl; [exact Hr|]. constructor; auto. Qed.

Lemma lowering_rel_wf (ts ts' : list utoken) :
  lowering_rel ts ts' -> tok_wf ts -> tok_wf ts'.
Proof.
  induction 1 as [|b r r' Hrel IH|c cs r r' Hc Hne Hcs _ IH]; intros Hw.
  - constructor.
  - inversion Hw as [| |? ? Hn Hr]; subst. constructor; [|auto].
    apply (utf8_next_none_cont b (tokens_text r)); [|exact Hn].
    apply lowering_rel_prefix, Hrel.
  - inversion Hw; subst. apply tok_wf_cps; auto.
Qed.

Definition tok_fixed (t : utoken) : Prop :=
  match t with
  | UCp c => lower_fixed c
  | URaw _ => True
  end.

Lemma lower_tokens_rel (ts : list utoken) :
  tok_wf ts -> forall before, lowering_rel ts (lower_tokens before ts).
Proof.
  induction 1 as [|c r Hc Hw IH|b r Hn Hw IH]; intros before; cbn [lower_tokens].
  - constructor.
  - destruct (Z.eqb_spec c 931).
    + change (lowering_rel (UCp c :: r)
                (map UCp [if final_sigma before r then 962 else 963]%Z
                 ++ lower_tokens (UCp c :: before) r)).
      apply lr_cp; [exact Hc | discriminate | | apply IH].
      constructor; [destruct (final_sigma before r); lia | constructor].
    + apply lr_cp; [exact Hc | apply lower_cp_nonempty | | apply IH].
      apply (List.Forall_impl (P := lower_fixed)); [intros d Hd; exact (proj1 (proj2 Hd))|].
      apply lower_cp_fixed; assumption.
  - constructor. auto.
Qed.

Lemma lower_tokens_fixed (ts : list utoken) :
  tok_wf ts -> forall before, Forall tok_fixed (lower_tokens before ts).
Proof.
  induction 1 as [|c r Hc Hw IH|b r Hn Hw IH]; intros before; cbn [lower_tokens].
  - constructor.
  - apply Forall_app; split; [|auto]. destruct (Z.eqb_spec c 931).
    + constructor; [|constructor]. cbn [tok_fixed].
      destruct (final_sigma before r); apply lower_fixed_b_spec; vm_compute; reflexivity.
    + apply List.Forall_map. apply lower_cp_fixed; assumption.
  - constructor; [exact I | auto].
Qed.

Lemma lower_tokens_id (ts : list utoken) :
  Forall tok_fixed ts -> forall before, lower_tokens before ts = ts.
Proof.
  induction 1 as [|t r Ht _ IH]; intros before; [reflexivity|]. cbn [lower_tokens].
  rewrite IH. destruct t as [c|b]; [|reflexivity].
  destruct Ht as (Hn & _ & Hl). apply Z.eqb_neq in Hn. rewrite Hn, Hl. reflexivity.
Qed.

(** [s.lower().lower() == s.lower()]. *)
Lemma str_lower_idem (s : string) : str_lower (str_lower s) = str_lower s.
Proof.
  unfold str_lower at 2 3.
  destruct (utf8_tokens_wf (String.length s) s (le_n _)) as [Hw _].
  set (ts := utf8_tokens (String.length s) s) in *.
  pose proof (lowering_rel_wf _ _ (lower_tokens_rel ts Hw []) Hw) as Hw'.
  unfold str_lower. rewrite (utf8_tokens_reparse _ Hw' _ (le_n _)).
  rewrite (lower_tokens_id _ (lower_tokens_fixed ts Hw [])). reflexivity.
Qed.

(** No two elements of the list are equal under [==], in their order. *)
Fixpoint py_pairwise_distinct (xs : list pyval) : Prop :=
  match xs with
  | [] => True
  | x :: r => (forall y, In y r -> py_eq x y = false) /\ py_pairwise_distinct r
  end.

Lemma py_set_add_in (acc : list pyval) (x z : pyval) :
  In z (py_set_add acc x) -> In z acc \/ z = x.
Proof.
  induction acc as [|y acc IH]; simpl.
  - intros [<- | []]. right. reflexivity.
  - destruct (py_eq y x); [auto|]. intros [<- | Hz]; [auto|].
    destruct (IH Hz); auto.
Qed.

Lemma py_set_add_distinct (acc : list pyval) (x : pyval) :
  py_pairwise_distinct acc -> py_pairwise_distinct (py_set_add acc x).
Proof.
  induction acc as [|y acc IH]; simpl.
  - intros _. split; [intros _ []|exact I].
  - intros [Hy Hacc]. destruct (py_eq y x) eqn:E; simpl; [auto|].
    split; [|auto]. intros z Hz. destruct (py_set_add_in acc x z Hz) as [Hin | ->]; auto.
Qed.

Lemma py_set_add_fresh (acc : list pyval) (x : pyval) :
  (forall y, In y acc -> py_eq y x = false) -> py_set_add acc x = (acc ++ [x])%list.
Proof.
  induction acc as [|y acc IH]; simpl; intros H; [reflexivity|].
  rewrite (H y (or_introl eq_refl)), IH; auto.
Qed.

Lemma fold_set_add_distinct (l acc : list pyval) :
  py_pairwise_distinct acc -> py_pairwise_distinct (fold_left py_set_add l acc).
Proof.
  revert acc. induction l as [|x l IH]; simpl; auto.
  intros acc H. apply IH, py_set_add_distinct, H.
Qed.

Lemma fold_set_add_in (l acc : list pyval) (z : pyval) :
  In z (fold_left py_set_add l acc) -> In z acc \/ In z l.
Proof.
  revert acc. induction l as [|x l IH]; simpl; intros acc Hz; [auto|].
  destruct (IH _ Hz) as [H | H]; [|auto].
  destruct (py_set_add_in acc x z H); subst; auto.
Qed.

Lemma pairwise_distinct_app (a b : list pyval) :
  py_pairwise_distinct (a ++ b)%list -> forall y z, In y a -> In z b -> py_eq y z = false.
Proof.
  induction a as [|x a IH]; simpl; [intros _ y z []|].
  intros [Hx Hab] y z [<- | Hy] Hz.
  - apply Hx, in_or_app. auto.
  - exact (IH Hab y z Hy Hz).
Qed.

Lemma fold_set_add_id (l acc : list pyval) :
  py_pairwise_distinct (acc ++ l)%list -> fold_left py_set_add l acc = (acc ++ l)%list.
Proof.
  revert acc. induction l as [|x l IH]; simpl; intros acc H.
  - now rewrite app_nil_r.
  - rewrite py_set_add_fresh.
    + rewrite IH; [now rewrite <- app_assoc|]. now rewrite <- app_assoc.
    + intros y Hy. exact (pairwise_distinct_app acc (x :: l) H y x Hy (or_introl eq_refl)).
Qed.

(** [set(set(xs)) == set(xs)], element order included. *)
Lemma py_set_of_idem (xs : list pyval) : py_set_of (py_set_of xs) = py_set_of xs.
Proof.
  unfold py_set_of at 1. apply (fold_set_add_id _ []). simpl.
  apply fold_set_add_distinct. exact I.
Qed.

Lemma map_fixed_Forall (f : pyval -> pyval) (xs : list pyval) :
  Forall (fun x => f (f x) = f x) xs -> map f (map f xs) = map f xs.
Proof. induction 1; simpl; f_equal; auto. Qed.

(** Lowercasing twice is lowercasing once, at every depth, for sets too
    (whose elements were already merged by the first pass). *)
Theorem lowercase_value_idempotent (value : pyval) :
  lowercase_value (lowercase_value value) = lowercase_value value.
Proof.
  induction value using pyval_ind'; simpl; try reflexivity.
  - now rewrite str_lower_idem.
  - f_equal. now apply map_fixed_Forall.
  - f_equal. now apply map_fixed_Forall.
  - f_equal. rewrite <- (py_set_of_idem (map lowercase_value xs)) at 2. f_equal.
    rewrite <- (map_id (py_set_of (map lowercase_value xs))) at 2.
    apply map_ext_in. intros z Hz.
    destruct (fold_set_add_in _ [] z Hz) as [[] | Hin].
    apply in_map_iff in Hin as (x & <- & Hx).
    rewrite List.Forall_forall in H. exact (H x Hx).
  - f_equal. rewrite map_map. simpl. clear H.
    induction H0 as [|kv kvs Hkv _ IH]; simpl; [reflexivity|].
    now rewrite Hkv, IH.
Qed.

(** ** [validate_customer_id] *)

(** A stored profile that is neither a [str] nor [bytes]/[bytearray] (a
    dict put in the state as is, a number, [None], a list) makes
    [json.loads] raise TypeError, which the handler does not catch. *)
Theorem validate_customer_id_non_string_profile (customer_id profile : pyval)
    (st : session_state) :
  st !! "customer_profile" = Some profile ->
  (forall s, profile <> PStr s /\ profile <> PBytes s) ->
  validate_customer_id customer_id st = inl TypeError.
Proof.
  intros Hp Hs. unfold validate_customer_id. rewrite Hp.
  destruct profile; try reflexivity; exfalso.
  - exact (proj1 (Hs s) eq_refl).
  - exact (proj2 (Hs b) eq_refl).
Qed.

Lemma validate_customer_id_non_string_profile_witness :
  validate_customer_id (PStr "7")
    (<["customer_profile" := PDict [(PStr "customer_id", PStr "7")]]> ∅) = inl TypeError.
Proof.
  apply validate_customer_id_non_string_profile
    with (profile := PDict [(PStr "customer_id", PStr "7")]);
    [apply lookup_insert_eq | split; discriminate].
Defined.

(** The handler catches only JSONDecodeError and KeyError: any other
    exception of [json.loads] escapes the validator, such as the
    ValueError of an integer literal over 4300 digits or the
    UnicodeDecodeError of [bytes] that are not valid in their codec. *)
Theorem validate_customer_id_uncaught_decode_errors (customer_id profile : pyval)
    (st : session_state) (e : pyexc) :
  st !! "customer_profile" = Some profile ->
  json_loads profile = inl e -> e <> JSONDecodeError -> e <> KeyError ->
  validate_customer_id customer_id st = inl e.
Proof.
  intros Hp Hj H1 H2. unfold validate_customer_id. rewrite Hp, Hj. cbn [res_bind].
  destruct e; try reflexivity; congruence.
Qed.

Lemma validate_customer_id_uncaught_decode_errors_witness :
  validate_customer_id (PStr "7")
    (<["customer_profile" := PBytes (bytes_of [34; 255; 34]%Z)]> ∅) = inl UnicodeDecodeError /\
  validate_customer_id (PStr "7")
    (<["customer_profile" := PStr (String.concat "" (repeat "1" 4301))]> ∅) = inl ValueError.
Proof.
  split.
  - apply (validate_customer_id_uncaught_decode_errors _ (PBytes (bytes_of [34; 255; 34]%Z)));
      [apply lookup_insert_eq | vm_compute; reflexivity | discriminate | discriminate].
  - apply (validate_customer_id_uncaught_decode_errors _
             (PStr (String.concat "" (repeat "1" 4301))));
      [apply lookup_insert_eq | vm_compute; reflexivity | discriminate | discriminate].
Defined.

Lemma msg_mismatch_nonempty (a b : pyval) : msg_mismatch a b <> "".
Proof. unfold msg_mismatch. simpl. discriminate. Qed.

(** The shape of the validator's answers: a JSONDecodeError or KeyError
    never escapes it; a success carries the empty message, and a
    rejection always carries a non-empty one, so the guard never answers
    the model with an empty string. *)
Theorem validate_customer_id_outcomes (customer_id : pyval) (st : session_state) :
  (forall e, validate_customer_id customer_id st = inl e ->
     e <> JSONDecodeError /\ e <> KeyError) /\
  (forall m, validate_customer_id customer_id st = inr (true, m) -> m = "") /\
  (forall m, validate_customer_id customer_id st = inr (false, m) -> m <> "").
Proof.
  unfold validate_customer_id.
  destruct (st !! "customer_profile") as [profile|].
  2:{ split; [discriminate|split; [discriminate|]].
      intros m H. inversion H. unfold msg_no_profile. discriminate. }
  destruct (json_loads profile) as [e|data]; cbn [res_bind].
  - destruct e; (split; [intros e' H; inversion H; subst; split; discriminate|split]);
      intros m H; inversion H; unfold msg_unparsable; discriminate.
  - destruct (py_get data (PStr "customer_id") PNone) as [e|stored]; cbn [res_bind].
    + destruct e; (split; [intros e' H; inversion H; subst; split; discriminate|split]);
        intros m H; inversion H; unfold msg_unparsable; discriminate.
    + destruct (py_eq customer_id stored).
      * split; [discriminate|split; [|discriminate]]. intros m H. inversion H. reflexivity.
      * split; [discriminate|split; [discriminate|]].
        intros m H. inversion H. apply msg_mismatch_nonempty.
Qed.

Lemma validate_customer_id_outcomes_witness :
  validate_customer_id (PStr "7") ∅ = inr (false, msg_no_profile) /\ msg_no_profile <> "".
Proof.
  split; [reflexivity|].
  apply (proj2 (proj2 (validate_customer_id_outcomes (PStr "7") ∅))). reflexivity.
Defined.
